(** * Watermark placement, colour parsing and option normalisation

    A shallow embedding of [src/utils/pdfWatermark.js]:
    [generateWatermarkPositions], [parseColor], the option block at the
    head of [addWatermarkToPDF] and the control flow of
    [addWatermarkToPDF] itself.

    Conventions of the embedding.
    - A JavaScript number that the code computes with is an exact
      rational ([Q]); rounding of IEEE doubles is not modelled.  Where the
      code can meet [NaN] or an infinity (the colour parser, [parseFloat])
      the type [number] adds them.  A double can differ from the rational
      by a unit in the last place: a product [col * (width / gridSize)]
      that is exactly the width here can exceed it there, so nothing is
      stated about a position added by the loops lying on the page.
    - A JavaScript string is its sequence of UTF-16 code units
      ([jsstring]); [js] turns an ASCII literal into one.
    - The result of [parseInt] is the integer that the digits denote, in
      [Z].  The code has the nearest double instead, which is that
      integer up to 2^53 in magnitude, and [Infinity] for digits beyond
      the largest double.
    - pdf-lib, the file reader, [fetch] and [Math.random] are
      collaborators, gathered in a record [World]; the theorems hold for
      every world.  pdf-lib's [rgb] and [page.drawText] check their
      arguments and can throw. *)

From Stdlib Require Import QArith Qabs Qround ZArith List FinFun Lia Lqa Bool Ascii String.
Import ListNotations.

Open Scope Q_scope.

(** ** Comparisons of numbers, as booleans *)

Definition Qltb (a b : Q) : bool := negb (Qle_bool b a).

(** [for (let i = 0; i <= n; i++)] visits 0, 1, ..., n. *)
Definition upto (n : Z) : list Z :=
  map Z.of_nat (seq 0 (Z.to_nat (n + 1))).

(** ** PositionGenerator *)

Module PositionGenerator.

(** [{ x, y, size }] *)
Record StampPosition : Type := mkPos { x : Q; y : Q; size : Q }.

(** The predicate given to [positions.some]:
    [Math.abs(pos.x - x) < 50 && Math.abs(pos.y - y) < 50]. *)
Definition near (px py : Q) (pos : StampPosition) : bool :=
  Qltb (Qabs (x pos - px)) 50 && Qltb (Qabs (y pos - py)) 50.

Definition isDuplicate (positions : list StampPosition) (px py : Q) : bool :=
  existsb (near px py) positions.

(** [if (!isDuplicate) positions.push({ x, y, size: fontSize })] *)
Definition pushUnlessDuplicate (fontSize : Q)
    (positions : list StampPosition) (pxy : Q * Q) : list StampPosition :=
  if isDuplicate positions (fst pxy) (snd pxy) then positions
  else positions ++ [mkPos (fst pxy) (snd pxy) fontSize].

(** The centre stamp and the four corner stamps, pushed unconditionally. *)
Definition basePositions (width height fontSize : Q) : list StampPosition :=
  [ mkPos (width / 2) (height / 2) (fontSize * 1.5);
    mkPos 100 (height - 100) fontSize;
    mkPos (width - 100) (height - 100) fontSize;
    mkPos 100 100 fontSize;
    mkPos (width - 100) 100 fontSize ].

(** The candidates of the grid loop, in the order the two nested loops
    visit them: rows outermost, [x = col * spacingX], [y = row * spacingY].
    The quotients and products are exact; the code's doubles can differ
    from them by a unit in the last place, so that the last column or row
    can lie just beyond the width or the height, and a distance of
    exactly 50 here can fall on the other side of the test there. *)
Definition gridPoints (width height : Q) (gridSize : Z) : list (Q * Q) :=
  let spacingX := width / inject_Z gridSize in
  let spacingY := height / inject_Z gridSize in
  flat_map (fun row =>
    map (fun col => (inject_Z col * spacingX, inject_Z row * spacingY))
        (upto gridSize))
    (upto gridSize).

(** First diagonal loop: [(width / n) * i, (height / n) * i], exact as
    in [gridPoints]. *)
Definition diagonal1 (width height : Q) (diagonalCount : Z) : list (Q * Q) :=
  map (fun i => ((width / inject_Z diagonalCount) * inject_Z i,
                 (height / inject_Z diagonalCount) * inject_Z i))
      (upto diagonalCount).

(** Second diagonal loop: [(width / n) * i, height - (height / n) * i],
    exact as in [gridPoints]. *)
Definition diagonal2 (width height : Q) (diagonalCount : Z) : list (Q * Q) :=
  map (fun i => ((width / inject_Z diagonalCount) * inject_Z i,
                 height - (height / inject_Z diagonalCount) * inject_Z i))
      (upto diagonalCount).

(** [if (density > 1) { ... }] *)
Definition gridLayer (width height fontSize : Q) (density : Z)
    (positions : list StampPosition) : list StampPosition :=
  if (1 <? density)%Z then
    let gridSize := Z.max 2 (density * 2) in
    fold_left (pushUnlessDuplicate fontSize)
              (gridPoints width height gridSize) positions
  else positions.

(** [if (density >= 4) { ... }] *)
Definition diagonalLayer (width height fontSize : Q) (density : Z)
    (positions : list StampPosition) : list StampPosition :=
  if (4 <=? density)%Z then
    let diagonalCount := (density * 2)%Z in
    fold_left (pushUnlessDuplicate fontSize)
              (diagonal2 width height diagonalCount)
              (fold_left (pushUnlessDuplicate fontSize)
                         (diagonal1 width height diagonalCount) positions)
  else positions.

(** Everything [generateWatermarkPositions] has pushed when it reaches the
    [density === 5] block: the positions that do not depend on
    [Math.random]. *)
Definition nonRandomPositions (width height fontSize : Q) (density : Z)
    : list StampPosition :=
  diagonalLayer width height fontSize density
    (gridLayer width height fontSize density
       (basePositions width height fontSize)).

(** The [density === 5] block.  [random k] is the value of the [k]-th call
    of [Math.random()]; each of the 15 rounds makes three calls, for [x],
    for [y] and for [size]. *)
Definition extraWatermarks : nat := 15.

Definition randomLayer (random : nat -> Q) (width height fontSize : Q)
    (density : Z) : list StampPosition :=
  if (density =? 5)%Z then
    map (fun i => mkPos (random (3 * i)%nat * width)
                        (random (3 * i + 1)%nat * height)
                        (fontSize * (0.8 + random (3 * i + 2)%nat * 0.4)))
        (seq 0 extraWatermarks)
  else [].

Definition generateWatermarkPositions (random : nat -> Q)
    (width height fontSize : Q) (density : Z) : list StampPosition :=
  nonRandomPositions width height fontSize density
    ++ randomLayer random width height fontSize density.

End PositionGenerator.

(** ** Vocabulary for the statements about positions *)

Module PositionSpec.
Import PositionGenerator.

(** [close p q]: the positions differ by less than 50 on both axes. *)
Definition close (p q : StampPosition) : Prop :=
  Qabs (x p - x q) < 50 /\ Qabs (y p - y q) < 50.

(** No two entries of the list, at different indices, are close. *)
Definition noClosePairs (l : list StampPosition) : Prop :=
  forall i j p q, i <> j ->
    nth_error l i = Some p -> nth_error l j = Some q -> ~ close p q.

(** [separatedFrom n l]: every element of [l] at an index [j >= n] is not
    close to any element before it. *)
Definition separatedFrom (n : nat) (l : list StampPosition) : Prop :=
  forall i j p q, (i < j)%nat -> (n <= j)%nat ->
    nth_error l i = Some p -> nth_error l j = Some q -> ~ close p q.

(** The number of positions that do not come from [Math.random]. *)
Definition nonRandomCount (width height fontSize : Q) (density : Z) : nat :=
  List.length (nonRandomPositions width height fontSize density).

(** The stamp pushed for a candidate point. *)
Definition toPos (fs : Q) (pt : Q * Q) : StampPosition :=
  mkPos (fst pt) (snd pt) fs.

(** [hits l0 pt]: the candidate [pt] is a duplicate of an element of [l0]. *)
Definition hits (l0 : list StampPosition) (pt : Q * Q) : bool :=
  isDuplicate l0 (fst pt) (snd pt).

(** The point of the grid at a (row, column) pair. *)
Definition gridPoint (spacingX spacingY : Q) (rc : Z * Z) : Q * Q :=
  (inject_Z (snd rc) * spacingX, inject_Z (fst rc) * spacingY).

End PositionSpec.

(** ** JavaScript strings *)

Module JsString.

(** A string is its sequence of UTF-16 code units. *)
Definition jsstring : Type := list N.

(** An ASCII literal as a JavaScript string. *)
Definition js (s : string) : jsstring :=
  map N_of_ascii (list_ascii_of_string s).

(** [s.startsWith(prefix)] *)
Fixpoint startsWith (s prefix : jsstring) : bool :=
  match prefix, s with
  | [], _ => true
  | _ :: _, [] => false
  | p :: prefix', c :: s' => (c =? p)%N && startsWith s' prefix'
  end.

(** [s.substring(a)] and [s.substring(a, b)] for [a <= b]. *)
Definition substringFrom (s : jsstring) (a : nat) : jsstring := skipn a s.
Definition substring (s : jsstring) (a b : nat) : jsstring :=
  firstn (b - a) (skipn a s).

(** [s.split(sep)] for a separator of one code unit: the empty string
    splits into one empty token. *)
Fixpoint split (sep : N) (s : jsstring) : list jsstring :=
  match s with
  | [] => [[]]
  | c :: s' =>
      if (c =? sep)%N then [] :: split sep s'
      else match split sep s' with
           | tok :: toks => (c :: tok) :: toks
           | [] => [[c]]
           end
  end.

(** [StrWhiteSpaceChar]: the white space and line terminator code units
    that the numeric conversions skip. *)
Definition isWhiteSpace (c : N) : bool :=
  ((9 <=? c) && (c <=? 13) || (c =? 32) || (c =? 160) || (c =? 5760)
   || (8192 <=? c) && (c <=? 8202) || (c =? 8232) || (c =? 8233)
   || (c =? 8239) || (c =? 8287) || (c =? 12288) || (c =? 65279))%N.

Fixpoint trimStart (s : jsstring) : jsstring :=
  match s with
  | c :: s' => if isWhiteSpace c then trimStart s' else s
  | [] => []
  end.

End JsString.

(** ** JavaScript numbers and the numeric conversions *)

Module JsNumber.
Import JsString.

(** A number is a rational, [NaN] or an infinity. *)
Inductive number : Type :=
| NaN
| Fin (q : Q)
| PosInf
| NegInf.

Definition isNaN (v : number) : bool :=
  match v with NaN => true | _ => false end.

(** [Math.min(a, b)] and [Math.max(a, b)]: [NaN] if an argument is. *)
Definition Math_min (a b : number) : number :=
  match a, b with
  | NaN, _ | _, NaN => NaN
  | NegInf, _ | _, NegInf => NegInf
  | PosInf, v | v, PosInf => v
  | Fin p, Fin q => if Qltb q p then Fin q else Fin p
  end.

Definition Math_max (a b : number) : number :=
  match a, b with
  | NaN, _ | _, NaN => NaN
  | PosInf, _ | _, PosInf => PosInf
  | NegInf, v | v, NegInf => v
  | Fin p, Fin q => if Qltb p q then Fin q else Fin p
  end.

(** [v / d] for a finite non-zero [d]. *)
Definition divideBy (v : number) (d : Q) : number :=
  match v with
  | NaN => NaN
  | Fin q => Fin (q / d)
  | PosInf => if Qltb d 0 then NegInf else PosInf
  | NegInf => if Qltb d 0 then PosInf else NegInf
  end.

(** The result of [parseInt]: an integer, or [NaN]. *)
Definition ofInt (r : option Z) : number :=
  match r with Some z => Fin (inject_Z z) | None => NaN end.

(** The value of a code unit as a digit: 0-9, then a-z and A-Z for 10-35. *)
Definition digitValue (c : N) : option Z :=
  if ((48 <=? c) && (c <=? 57))%N then Some (Z.of_N c - 48)%Z
  else if ((97 <=? c) && (c <=? 122))%N then Some (Z.of_N c - 87)%Z
  else if ((65 <=? c) && (c <=? 90))%N then Some (Z.of_N c - 55)%Z
  else None.

(** The longest prefix of digits of the radix, as digit values, and what
    follows it. *)
Fixpoint takeDigits (radix : Z) (s : jsstring) : list Z * jsstring :=
  match s with
  | c :: s' =>
      match digitValue c with
      | Some d => if (d <? radix)%Z
                  then let '(ds, rest) := takeDigits radix s' in (d :: ds, rest)
                  else ([], s)
      | None => ([], s)
      end
  | [] => ([], [])
  end.

Definition digitsValue (radix : Z) (ds : list Z) : Z :=
  fold_left (fun acc d => acc * radix + d)%Z ds 0%Z.

Definition isSign (c : N) : bool := ((c =? 43) || (c =? 45))%N.

(** A leading ['+'] or ['-']: the sign and the rest. *)
Definition takeSign (s : jsstring) : Z * jsstring :=
  match s with
  | c :: s' => if (c =? 45)%N then ((-1)%Z, s')
               else if (c =? 43)%N then (1%Z, s') else (1%Z, s)
  | [] => (1%Z, [])
  end.

(** A leading ["0x"] or ["0X"]. *)
Definition hasHexPrefix (s : jsstring) : bool :=
  match s with
  | c0 :: c1 :: _ => (c0 =? 48)%N && ((c1 =? 120) || (c1 =? 88))%N
  | _ => false
  end.

(** [parseInt(s, radix)]; [radix = 0] stands for a call without radix.
    Leading white space is skipped, a sign is read, ["0x"] is stripped when
    the radix is 16 or absent, then the longest run of digits is the
    value; no digit at all gives [NaN] ([None]).  The value is the exact
    integer: the code has the double nearest to it, which differs from it
    above 2^53 (the 21 digits 999999999999999999999 read as 1e21) and is
    [Infinity] beyond the largest double. *)
Definition parseInt (s : jsstring) (radix : Z) : option Z :=
  let '(sign, s1) := takeSign (trimStart s) in
  if (radix =? 0)%Z || ((2 <=? radix) && (radix <=? 36))%Z then
    let stripPrefix := (radix =? 0)%Z || (radix =? 16)%Z in
    let r0 := if (radix =? 0)%Z then 10%Z else radix in
    let '(r, s2) := if stripPrefix && hasHexPrefix s1
                    then (16%Z, skipn 2 s1) else (r0, s1) in
    match fst (takeDigits r s2) with
    | [] => None
    | ds => Some (sign * digitsValue r ds)%Z
    end
  else None.

(** *** Decimal literals: [Number(s)] and [parseFloat(s)] *)

(** ["Infinity"] *)
Definition infinityWord : jsstring := js "Infinity".

(** [ExponentPart]: [e] or [E], an optional sign, at least one digit.
    The exponent and the rest, or [None] when there is no complete
    exponent part. *)
Definition takeExponent (s : jsstring) : option (Z * jsstring) :=
  match s with
  | c :: s' =>
      if ((c =? 101) || (c =? 69))%N then
        let '(sign, s1) := takeSign s' in
        match takeDigits 10 s1 with
        | ([], _) => None
        | (ds, rest) => Some ((sign * digitsValue 10 ds)%Z, rest)
        end
      else None
  | [] => None
  end.

(** [mantissa * 10^exponent] *)
Definition scale (mantissa : Q) (exponent : Z) : Q :=
  mantissa * Qpower 10 exponent.

(** The longest prefix that is a [StrUnsignedDecimalLiteral] other than
    ["Infinity"]: digits, an optional fraction, an optional exponent, with
    a digit before or after the point.  The value is the exact rational:
    the code has the double nearest to it, which is 0 for a literal
    below the smallest double (["1e-400"]) and [Infinity] for one beyond
    the largest. *)
Definition takeUnsignedDecimal (s : jsstring) : option (Q * jsstring) :=
  let '(ds1, s1) := takeDigits 10 s in
  let '(ds2, s2, pointUsed) :=
    match s1 with
    | c :: s1' => if (c =? 46)%N
                  then let '(ds, rest) := takeDigits 10 s1' in (ds, rest, true)
                  else ([], s1, false)
    | [] => ([], s1, false)
    end in
  match ds1, ds2 with
  | [], [] => None
  | _, _ =>
      let mantissa :=
        inject_Z (digitsValue 10 ds1)
        + inject_Z (digitsValue 10 ds2) / Qpower 10 (Z.of_nat (List.length ds2)) in
      match takeExponent s2 with
      | Some (e, rest) => Some (scale mantissa e, rest)
      | None => Some (mantissa, s2)
      end
  end.

(** The longest prefix that is a [StrDecimalLiteral]: an optional sign,
    then ["Infinity"] or an unsigned decimal literal. *)
Definition takeDecimal (s : jsstring) : option (number * jsstring) :=
  let '(sign, s1) := takeSign s in
  if startsWith s1 infinityWord then
    Some (if (sign <? 0)%Z then NegInf else PosInf,
          skipn (List.length infinityWord) s1)
  else
    match takeUnsignedDecimal s1 with
    | Some (q, rest) => Some (Fin (inject_Z sign * q), rest)
    | None => None
    end.

(** [parseFloat(s)]: white space is skipped, the longest decimal literal
    at the front is the value, whatever follows is ignored. *)
Definition parseFloat (s : jsstring) : number :=
  match takeDecimal (trimStart s) with
  | Some (v, _) => v
  | None => NaN
  end.

(** A [NonDecimalIntegerLiteral]: ["0x"], ["0o"] or ["0b"] (either case)
    and at least one digit of that radix. *)
Definition takeNonDecimal (s : jsstring) : option (Z * jsstring) :=
  match s with
  | c0 :: c1 :: s' =>
      if (c0 =? 48)%N then
        let radix :=
          if ((c1 =? 120) || (c1 =? 88))%N then 16%Z
          else if ((c1 =? 111) || (c1 =? 79))%N then 8%Z
          else if ((c1 =? 98) || (c1 =? 66))%N then 2%Z
          else 0%Z in
        if (radix =? 0)%Z then None
        else match takeDigits radix s' with
             | ([], _) => None
             | (ds, rest) => Some (digitsValue radix ds, rest)
             end
      else None
  | _ => None
  end.

(** [Number(s)]: the whole string, white space at both ends apart, must be
    a numeric literal; the empty string is 0; anything else is [NaN]. *)
Definition Number (s : jsstring) : number :=
  match trimStart s with
  | [] => Fin 0
  | s1 =>
      match takeNonDecimal s1 with
      | Some (z, rest) =>
          match trimStart rest with [] => Fin (inject_Z z) | _ => NaN end
      | None =>
          match takeDecimal s1 with
          | Some (v, rest) => match trimStart rest with [] => v | _ => NaN end
          | None => NaN
          end
      end
  end.

End JsNumber.

(** ** ColorParser *)

Module ColorParser.
Import JsString JsNumber.

(** The colour object: the three numbers handed to pdf-lib's [rgb].  The
    constructor only holds them; pdf-lib's [rgb] also checks that each is
    a number from 0 to 1 and throws otherwise, and that call is
    [Orchestrator.pdf_rgb]. *)
Record RGB : Type := rgb { red : number; green : number; blue : number }.

(** What [parseColor] writes to the console. *)
Inductive diagnostic : Type :=
| LogHex          (** [console.log] after the hexadecimal branch *)
| WarnHexFormat   (** [console.warn]: invalid hexadecimal format *)
| LogRgb          (** [console.log] after the comma-separated branch *)
| WarnRgbFormat.  (** [console.warn]: invalid RGB format *)

(** [Math.max(0, Math.min(1, v))] *)
Definition clamp01 (v : number) : number :=
  Math_max (Fin 0) (Math_min (Fin 1) v).

(** [hex[i]], used only below [hex.length]. *)
Definition charAt (s : jsstring) (i : nat) : jsstring :=
  match nth_error s i with Some c => [c] | None => [] end.

(** [parseInt(digits, 16) / 255] *)
Definition channel (digits : jsstring) : number :=
  divideBy (ofInt (parseInt digits 16)) 255.

(** [parseColor], with the console output it produces, up to the
    arguments of its final [rgb(r, g, b)].  For a string argument no
    operation inside the [try] block throws, so the [catch] branch is
    never taken and is left out; the final [rgb] is outside the [try]. *)
Definition parseColorTrace (colorStr : jsstring) : list diagnostic * RGB :=
  let '(out, r, g, b) :=
    if startsWith colorStr (js "#") then
      let hex := substringFrom colorStr 1 in
      if (List.length hex =? 3)%nat then
        ([LogHex],
         channel (charAt hex 0 ++ charAt hex 0),
         channel (charAt hex 1 ++ charAt hex 1),
         channel (charAt hex 2 ++ charAt hex 2))
      else if (List.length hex =? 6)%nat then
        ([LogHex],
         channel (substring hex 0 2),
         channel (substring hex 2 4),
         channel (substring hex 4 6))
      else ([WarnHexFormat; LogHex], Fin 0, Fin 0, Fin 0)
    else
      let colorValues := map Number (split 44 colorStr) in
      if (3 <=? List.length colorValues)%nat && negb (existsb isNaN colorValues) then
        ([LogRgb],
         clamp01 (nth 0 colorValues NaN),
         clamp01 (nth 1 colorValues NaN),
         clamp01 (nth 2 colorValues NaN))
      else ([WarnRgbFormat], Fin 0, Fin 0, Fin 0)
  in (out, rgb (clamp01 r) (clamp01 g) (clamp01 b)).

Definition parseColor (colorStr : jsstring) : RGB :=
  snd (parseColorTrace colorStr).

(** [parseColor] took one of its two fall-back branches. *)
Definition warned (colorStr : jsstring) : bool :=
  existsb (fun d => match d with WarnHexFormat | WarnRgbFormat => true | _ => false end)
          (fst (parseColorTrace colorStr)).

End ColorParser.

(** ** Vocabulary for the statements about colours *)

Module ColorSpec.
Import JsString JsNumber ColorParser.

(** Equality of numbers as values. *)
Definition numEq (a b : number) : Prop :=
  match a, b with
  | NaN, NaN | PosInf, PosInf | NegInf, NegInf => True
  | Fin p, Fin q => p == q
  | _, _ => False
  end.

Definition rgbEq (c d : RGB) : Prop :=
  numEq (red c) (red d) /\ numEq (green c) (green d) /\ numEq (blue c) (blue d).

(** A channel value in the interval [0,1]. *)
Definition inUnit (v : number) : Prop :=
  match v with Fin q => 0 <= q <= 1 | _ => False end.

Definition black : RGB := rgb (Fin 0) (Fin 0) (Fin 0).

(** A hexadecimal digit: 0-9, a-f, A-F. *)
Definition isHexDigit (c : N) : bool :=
  ((48 <=? c) && (c <=? 57) || (97 <=? c) && (c <=? 102)
   || (65 <=? c) && (c <=? 70))%N.

(** The value of a hexadecimal digit. *)
Definition hexDigit (c : N) : Z :=
  if ((48 <=? c) && (c <=? 57))%N then Z.of_N c - 48
  else if ((97 <=? c) && (c <=? 102))%N then Z.of_N c - 97 + 10
  else Z.of_N c - 65 + 10.

(** The [hexToInt] of the specification on a pair of hexadecimal digits. *)
Definition hexToInt (hi lo : N) : Z := (16 * hexDigit hi + hexDigit lo)%Z.

(** The code units that are hexadecimal digits. *)
Definition hexDigits : list N :=
  map N.of_nat (seq 48 10 ++ seq 65 6 ++ seq 97 6).

(** ["#"] followed by the given code units. *)
Definition hash (digits : jsstring) : jsstring := 35%N :: digits.

(** The inputs for which the specification asks for the fall-back to
    black: after ['#'] a length other than 3 or 6; without ['#'] fewer than
    three tokens between commas, or a token that is not a number. *)
Definition invalidColor (s : jsstring) : Prop :=
  (startsWith s (js "#") = true /\
   List.length (substringFrom s 1) <> 3%nat /\
   List.length (substringFrom s 1) <> 6%nat)
  \/
  (startsWith s (js "#") = false /\
   ((List.length (split 44 s) < 3)%nat \/
    exists tok, In tok (split 44 s) /\ Number tok = NaN)).

(** The check that [parseInt] reads a pair of hexadecimal digits as
    [hexToInt] says, with a value between 0 and 255. *)
Definition pairOk (c1 c2 : N) : bool :=
  match parseInt [c1; c2] 16 with
  | Some z => (z =? hexToInt c1 c2)%Z && (0 <=? z)%Z && (z <=? 255)%Z
  | None => false
  end.

End ColorSpec.

(** ** Option normalisation *)

Module Options.
Import JsString JsNumber.

(** The values a field of [watermarkOptions] can hold. *)
Inductive jsval : Type :=
| Undefined
| Null
| Bool (b : bool)
| Num (n : number)
| Str (s : jsstring).

(** The integer part of a rational, towards zero. *)
Definition truncate (q : Q) : Z := Z.quot (Qnum q) (Zpos (Qden q)).

(** The first decimal digit of a positive integer. *)
Fixpoint leadingDigitZ (fuel : nat) (n : Z) : Z :=
  match fuel with
  | O => n
  | S fuel' => if (n <? 10)%Z then n else leadingDigitZ fuel' (n / 10)
  end.

(** The first significant decimal digit of a positive rational below 1. *)
Fixpoint leadingDigitFrac (fuel : nat) (q : Q) : Z :=
  match fuel with
  | O => Qfloor q
  | S fuel' => if Qle_bool 1 q then Qfloor q else leadingDigitFrac fuel' (q * 10)
  end.

Definition leadingDigit (q : Q) : Z :=
  if Qle_bool 1 q
  then leadingDigitZ (S (Z.to_nat (Z.log2 (Qfloor q)))) (Qfloor q)
  else leadingDigitFrac (S (Z.to_nat (Z.log2 (Zpos (Qden q))))) q.

(** [parseInt(n)] for a number [n]: [parseInt] reads the decimal string of
    [n].  From 1e-6 up to 1e21 that string has plain digits and the result
    is the integer part; outside it the string is in exponent notation,
    with a single digit before the point; ["NaN"] and ["Infinity"] have no
    digit. *)
Definition parseIntNumber (n : number) : option Z :=
  match n with
  | Fin q =>
      if Qeq_bool q 0 then Some 0%Z
      else if Qle_bool (1 # 1000000) (Qabs q)
              && Qltb (Qabs q) (inject_Z (10 ^ 21))
      then Some (truncate q)
      else Some (Z.sgn (Qnum q) * leadingDigit (Qabs q))%Z
  | _ => None
  end.

(** [parseInt(v)]: of the string that [v] converts to. *)
Definition parseIntOf (v : jsval) : option Z :=
  match v with
  | Undefined => parseInt (js "undefined") 0
  | Null => parseInt (js "null") 0
  | Bool true => parseInt (js "true") 0
  | Bool false => parseInt (js "false") 0
  | Num n => parseIntNumber n
  | Str s => parseInt s 0
  end.

(** [parseFloat(v)]: of the string that [v] converts to; the decimal
    string of a number reads back as that number. *)
Definition parseFloatOf (v : jsval) : number :=
  match v with
  | Undefined => parseFloat (js "undefined")
  | Null => parseFloat (js "null")
  | Bool true => parseFloat (js "true")
  | Bool false => parseFloat (js "false")
  | Num n => n
  | Str s => parseFloat s
  end.

(** [v || d] on numbers: [NaN] and 0 are falsy. *)
Definition orNumber (v d : number) : number :=
  match v with
  | NaN => d
  | Fin q => if Qeq_bool q 0 then d else v
  | _ => v
  end.

(** [v || d] on the result of [parseInt]. *)
Definition orInt (v : option Z) (d : Z) : Z :=
  match v with
  | None => d
  | Some z => if (z =? 0)%Z then d else z
  end.

(** [s || d] on an optional string: absent and empty are falsy. *)
Definition orString (s : option jsstring) (d : jsstring) : jsstring :=
  match s with
  | Some (c :: s') => c :: s'
  | _ => d
  end.

(** The argument [watermarkOptions].  The text and the colour are strings
    when present; the numeric fields hold whatever the caller put there. *)
Record RawOptions : Type := mkRaw {
  rawText : option jsstring;
  rawColor : option jsstring;
  rawOpacity : jsval;
  rawFontSize : jsval;
  rawRotation : jsval;
  rawDensity : jsval
}.

(** The object [options]. *)
Record WatermarkOptions : Type := mkOptions {
  text : jsstring;
  color : jsstring;
  opacity : number;
  fontSize : Z;
  rotation : Z;
  density : Z
}.

(** The four code units of the default text. *)
Definition defaultText : jsstring := [27700; 21360; 25991; 26412]%N.

(** [const options = { text: ... || ..., ... }] at the head of
    [addWatermarkToPDF]. *)
Definition normalizeOptions (watermarkOptions : RawOptions) : WatermarkOptions :=
  {| text := orString (rawText watermarkOptions) defaultText;
     color := orString (rawColor watermarkOptions) (js "#000000");
     opacity := orNumber (parseFloatOf (rawOpacity watermarkOptions)) (Fin 0.5);
     fontSize := orInt (parseIntOf (rawFontSize watermarkOptions)) 50;
     rotation := orInt (parseIntOf (rawRotation watermarkOptions)) (-45);
     density := orInt (parseIntOf (rawDensity watermarkOptions)) 3 |}.

(** The number [z] as a field value. *)
Definition numZ (z : Z) : jsval := Num (Fin (inject_Z z)).

End Options.

(** ** WatermarkOrchestrator *)

Module Orchestrator.
Import JsString JsNumber ColorParser PositionGenerator Options.

Definition bytes : Type := list N.

(** What a rejected promise or a [throw] carries. *)
Inductive exn : Type :=
| Rejected (reason : string)            (** an [Error] of a collaborator, with its message *)
| FontNotLoaded (statusText : jsstring) (** the [Error] the font branch throws *)
| ErrorEvent.                           (** an event object: it has no message *)

(** The result of a call that can throw. *)
Inductive outcome (A : Type) : Type :=
| Returned (a : A)
| Thrown (e : exn).
Arguments Returned {A} a.
Arguments Thrown {A} e.

(** The [File] argument. *)
Record File : Type := mkFile { name : jsstring; handle : nat }.

(** A loaded document: where it came from and the size of each page. *)
Record PDFDocument : Type := mkDoc {
  source : bytes;
  pageSizes : list (Q * Q)
}.

(** An embedded font: the custom one made from font data, or the standard
    [StandardFonts.HelveticaBold]. *)
Inductive PDFFont : Type :=
| CustomFont (fontData : bytes)
| HelveticaBold.

(** The response of [fetch]. *)
Record Response : Type := mkResponse {
  ok : bool;
  statusText : jsstring;
  arrayBuffer : outcome bytes
}.

(** One call of [page.drawText(text, { x, y, size, font, opacity, color,
    rotate })]; [rotate] is absent in the diagnostic stamp. *)
Record DrawCall : Type := mkDraw {
  onPage : nat;
  drawnText : jsstring;
  atX : Q;
  atY : Q;
  withSize : Q;
  withFont : PDFFont;
  withOpacity : number;
  withColor : RGB;
  rotate : option Z
}.

(** One call of [saveAs(new Blob([data], { type }), filename)]. *)
Record Download : Type := mkDownload {
  data : bytes;
  mimeType : jsstring;
  filename : jsstring
}.

(** The collaborators: the file reader, pdf-lib, [fetch] and
    [Math.random].  [Math_random i k] is the value of the [k]-th call made
    while page [i] is processed.  A collaborator answers the same call in
    the same way each time it is made.
    - [fileReader]: the bytes, or what the reader's [onerror] passes to
      [reject] (the error event, [ErrorEvent]).
    - [page_drawText]: pdf-lib checks the options of a call and encodes
      the text with the font before it draws; it throws when an option is
      out of range (an opacity outside [0,1]) or the font cannot encode a
      character, and then nothing is drawn.
    - [rgbError]: the error pdf-lib's [rgb] throws for numbers it does not
      accept. *)
Record World : Type := mkWorld {
  fileReader : File -> outcome bytes;
  PDFDocument_load : bytes -> outcome PDFDocument;
  fetch : jsstring -> outcome Response;
  embedCustomFont : PDFDocument -> bytes -> outcome unit;
  embedStandardFont : PDFDocument -> outcome unit;
  save : PDFDocument -> list DrawCall -> outcome bytes;
  Math_random : nat -> nat -> Q;
  page_drawText : DrawCall -> outcome unit;
  rgbError : RGB -> exn
}.

(** What the run has done so far: the text drawn on the document and the
    downloads triggered. *)
Record Effects : Type := mkEffects {
  drawn : list DrawCall;
  downloads : list Download
}.

(** What [addWatermarkToPDF] hands back to its caller. *)
Inductive retval : Type :=
| RetTrue
| RetBytes (pdf : bytes).

(** *** A state and exception monad for the body of the function *)

Definition M (A : Type) : Type := Effects -> Effects * outcome A.

Definition ret {A} (a : A) : M A := fun s => (s, Returned a).

Definition throw {A} (e : exn) : M A := fun s => (s, Thrown e).

Definition bind {A B} (m : M A) (k : A -> M B) : M B :=
  fun s => match m s with
           | (s', Returned a) => k a s'
           | (s', Thrown e) => (s', Thrown e)
           end.

(** [await] of a collaborator's promise. *)
Definition await {A} (r : outcome A) : M A := fun s => (s, r).

(** [try { body } catch (e) { handler }] *)
Definition tryCatch {A} (body : M A) (handler : exn -> M A) : M A :=
  fun s => match body s with
           | (s', Returned a) => (s', Returned a)
           | (s', Thrown e) => handler e s'
           end.

(** A number between 0 and 1. *)
Definition inRange01 (v : number) : bool :=
  match v with
  | Fin q => Qle_bool 0 q && Qle_bool q 1
  | _ => false
  end.

(** pdf-lib's [rgb(red, green, blue)]: it asserts that each argument is a
    number from 0 to 1 and throws otherwise ([NaN] included). *)
Definition rgbAccepts (c : RGB) : bool :=
  inRange01 (red c) && inRange01 (green c) && inRange01 (blue c).

Definition pdf_rgb (w : World) (c : RGB) : M RGB :=
  if rgbAccepts c then ret c else throw (rgbError w c).

(** [page.drawText(...)]: the text is on the page when pdf-lib has
    accepted the call. *)
Definition drawText (w : World) (d : DrawCall) : M unit :=
  fun s => match page_drawText w d with
           | Returned _ => (mkEffects (drawn s ++ [d]) (downloads s), Returned tt)
           | Thrown e => (s, Thrown e)
           end.

(** [saveAs(blob, filename)] *)
Definition saveAs (d : Download) : M unit :=
  fun s => (mkEffects (drawn s) (downloads s ++ [d]), Returned tt).

(** The text drawn on the document so far. *)
Definition getDrawn : M (list DrawCall) := fun s => (s, Returned (drawn s)).

Declare Scope orch_scope.
Notation "x <- m ;; k" := (bind m (fun x => k))
  (at level 61, m at next level, right associativity) : orch_scope.
Notation "m ;;; k" := (bind m (fun _ => k))
  (at level 61, right associativity) : orch_scope.
Local Open Scope orch_scope.

(** [for (const a of l) { f a }] *)
Fixpoint forEach {A} (l : list A) (f : A -> M unit) : M unit :=
  match l with
  | [] => ret tt
  | a :: l' => f a ;;; forEach l' f
  end.

(** *** The function *)

(** [readFileAsArrayBuffer(file)]: the promise resolves with the result of
    the file reader when it has loaded and rejects when it fails. *)
Definition readFileAsArrayBuffer (w : World) (file : File) : M bytes :=
  await (fileReader w file).

(** [/[\u4e00-\u9fa5]/.test(text)]: a code unit from U+4E00 to U+9FA5. *)
Definition containsChinese (s : jsstring) : bool :=
  existsb (fun c => (19968 <=? c) && (c <=? 40869))%N s.

Definition fontPath : jsstring := js "/src/assets/fonts/simhei.ttf".

(** The inner [try]: fetch the font file and embed it. *)
Definition loadChineseFont (w : World) (pdfDoc : PDFDocument) : M PDFFont :=
  fontResponse <- await (fetch w fontPath) ;;
  if negb (ok fontResponse) then throw (FontNotLoaded (statusText fontResponse))
  else
    fontData <- await (arrayBuffer fontResponse) ;;
    await (embedCustomFont w pdfDoc fontData) ;;;
    ret (CustomFont fontData).

(** The inner [try ... catch]: the font, [useChineseFont] and the text to
    draw. *)
Definition chooseFont (w : World) (pdfDoc : PDFDocument) (optionsText : jsstring)
    : M (PDFFont * bool * jsstring) :=
  tryCatch
    (font <- loadChineseFont w pdfDoc ;;
     ret (font, true, optionsText))
    (fun fontError =>
       await (embedStandardFont w pdfDoc) ;;;
       ret (HelveticaBold, false,
            if containsChinese optionsText then js "CONFIDENTIAL" else optionsText)).

(** The watermark stamp drawn at one position. *)
Definition stamp (i : nat) (watermarkText : jsstring) (font : PDFFont)
    (options : WatermarkOptions) (watermarkColor : RGB) (pos : StampPosition)
    : DrawCall :=
  mkDraw i watermarkText (x pos) (y pos) (size pos) font (opacity options)
         watermarkColor (Some (rotation options)).

(** The opaque red stamp drawn when the fallback font is in use. *)
Definition testStamp (i : nat) (width height : Q) : DrawCall :=
  mkDraw i (js "TEST WATERMARK") (width - 200) (height - 50) 20 HelveticaBold
         (Fin 1) (rgb (Fin 1) (Fin 0) (Fin 0)) None.

(** The body of the loop over the pages, for page [i].  The options of
    the diagnostic stamp are evaluated in the order they are written: the
    font is embedded, then [rgb(1, 0, 0)] is called, then the text is
    drawn. *)
Definition watermarkPage (w : World) (pdfDoc : PDFDocument)
    (options : WatermarkOptions) (watermarkText : jsstring) (font : PDFFont)
    (useChineseFont : bool) (watermarkColor : RGB) (page : nat * (Q * Q))
    : M unit :=
  let i := fst page in
  let width := fst (snd page) in
  let height := snd (snd page) in
  let positions :=
    generateWatermarkPositions (Math_random w i) width height
      (inject_Z (fontSize options)) (density options) in
  forEach positions
    (fun pos => drawText w (stamp i watermarkText font options watermarkColor pos)) ;;;
  if negb useChineseFont then
    await (embedStandardFont w pdfDoc) ;;;
    pdf_rgb w (rgb (Fin 1) (Fin 0) (Fin 0)) ;;;
    drawText w (testStamp i width height)
  else ret tt.

(** The pages with their indices. *)
Definition indexed {A} (l : list A) : list (nat * A) :=
  combine (seq 0 (List.length l)) l.

(** [addWatermarkToPDF].  [parseColor] ends with [rgb(r, g, b)], outside
    its [try]: what [rgb] throws leaves [parseColor] and is caught only
    by the outer [catch]. *)
Definition addWatermarkToPDF (w : World) (file : File)
    (watermarkOptions : RawOptions) : M retval :=
  tryCatch
    (let options := normalizeOptions watermarkOptions in
     fileData <- readFileAsArrayBuffer w file ;;
     pdfDoc <- await (PDFDocument_load w fileData) ;;
     chosen <- chooseFont w pdfDoc (text options) ;;
     let '(font, useChineseFont, watermarkText) := chosen in
     watermarkColor <- pdf_rgb w (parseColor (color options)) ;;
     forEach (indexed (pageSizes pdfDoc))
       (watermarkPage w pdfDoc options watermarkText font useChineseFont
                      watermarkColor) ;;;
     texts <- getDrawn ;;
     modifiedPdfBytes <- await (save w pdfDoc texts) ;;
     saveAs (mkDownload modifiedPdfBytes (js "application/pdf")
                        (js "watermarked_" ++ name file)) ;;;
     ret RetTrue)
    (fun error => throw error).

(** A run from the state in which nothing has been drawn or downloaded. *)
Definition run {A} (m : M A) : Effects * outcome A := m (mkEffects [] []).

End Orchestrator.

(** ** Vocabulary for the statements about the orchestrator *)

Module OrchestratorSpec.
Import JsString JsNumber ColorParser PositionGenerator Options Orchestrator.

(** Everything drawn on page [i]: a stamp at each generated position and,
    with the fallback font, the diagnostic stamp. *)
Definition pageDraws (w : World) (options : WatermarkOptions)
    (watermarkText : jsstring) (font : PDFFont) (useChineseFont : bool)
    (watermarkColor : RGB) (page : nat * (Q * Q)) : list DrawCall :=
  map (stamp (fst page) watermarkText font options watermarkColor)
      (generateWatermarkPositions (Math_random w (fst page))
         (fst (snd page)) (snd (snd page))
         (inject_Z (fontSize options)) (density options))
  ++ (if negb useChineseFont
      then [testStamp (fst page) (fst (snd page)) (snd (snd page))]
      else []).

(** Embedding the preferred font fails: the fetch is rejected, the
    response is not ok, its body cannot be read, or pdf-lib rejects the
    font data. *)
Definition chineseFontFails (w : World) (pdfDoc : PDFDocument) : Prop :=
  match fetch w fontPath with
  | Thrown _ => True
  | Returned r =>
      ok r = false \/
      match arrayBuffer r with
      | Thrown _ => True
      | Returned fontData =>
          match embedCustomFont w pdfDoc fontData with
          | Thrown _ => True
          | Returned _ => False
          end
      end
  end.

(** The text drawn when the fallback font is in use. *)
Definition fallbackText (optionsText : jsstring) : jsstring :=
  if containsChinese optionsText then js "CONFIDENTIAL" else optionsText.

(** The download that a successful run triggers. *)
Definition expectedDownload (file : File) (pdf : bytes) : Download :=
  mkDownload pdf (js "application/pdf") (js "watermarked_" ++ name file).

(** [pre] is a beginning of [full]. *)
Definition prefixOf {A} (pre full : list A) : Prop :=
  exists rest, full = pre ++ rest.

(** The computation only draws, and what it draws is a beginning of
    [full]: all of [full] when it returns. *)
Definition appends {A} (full : list DrawCall) (m : M A) : Prop :=
  forall s, exists pre,
    fst (m s) = mkEffects (drawn s ++ pre) (downloads s) /\
    prefixOf pre full /\
    (forall a, snd (m s) = Returned a -> pre = full).



(** Whatever the computation throws satisfies [P]. *)
Definition throwsOnly {A} (P : exn -> Prop) (m : M A) : Prop :=
  forall s s' e, m s = (s', Thrown e) -> P e.

(** Everything drawn on the document when no call throws. *)
Definition allDraws (w : World) (options : WatermarkOptions)
    (watermarkText : jsstring) (font : PDFFont) (useChineseFont : bool)
    (pdfDoc : PDFDocument) : list DrawCall :=
  flat_map (pageDraws w options watermarkText font useChineseFont
              (parseColor (color options)))
           (indexed (pageSizes pdfDoc)).

(** The end of the function, from the state [after] the loop over the
    pages: save, download, return [true]. *)
Definition saveAndDownload (w : World) (file : File) (pdfDoc : PDFDocument)
    (after : Effects) : Effects * outcome retval :=
  match save w pdfDoc (drawn after) with
  | Returned pdf =>
      (mkEffects (drawn after) (downloads after ++ [expectedDownload file pdf]),
       Returned RetTrue)
  | Thrown e => (after, Thrown e)
  end.

(** The error was raised between the loading of the document and its
    saving: by the embedding of the standard font, by [rgb] or by
    [page.drawText]. *)
Definition raisedWhileStamping (w : World) (pdfDoc : PDFDocument) (e : exn) : Prop :=
  embedStandardFont w pdfDoc = Thrown e \/
  (exists c, rgbAccepts c = false /\ e = rgbError w c) \/
  (exists d, page_drawText w d = Thrown e).


(** A world for the examples: a two-page 600 x 800 document, no font file
    to fetch, every draw call accepted, saving returns three bytes. *)
Definition exampleDoc : PDFDocument := mkDoc [37; 80; 68; 70]%N [(600, 800); (600, 800)].

Definition exampleWorld : World :=
  mkWorld (fun _ => Returned [37; 80; 68; 70]%N)
          (fun _ => Returned exampleDoc)
          (fun _ => Thrown (Rejected "Failed to fetch"))
          (fun _ _ => Returned tt)
          (fun _ => Returned tt)
          (fun _ _ => Returned [1; 2; 3]%N)
          (fun _ _ => 0)
          (fun _ => Returned tt)
          (fun _ => Rejected "rgb").

Definition exampleFile : File := mkFile (js "a.pdf") 0.

Definition exampleOptions : RawOptions :=
  mkRaw (Some (js "DRAFT")) (Some (js "#FF0000"))
        (Num (Fin 0.5)) (numZ 40) (numZ 30) (numZ 1).

(** A world in which the file cannot be read. *)
Definition unreadableWorld : World :=
  mkWorld (fun _ => Thrown ErrorEvent)
          (fun _ => Returned exampleDoc)
          (fun _ => Thrown (Rejected "Failed to fetch"))
          (fun _ _ => Returned tt)
          (fun _ => Returned tt)
          (fun _ _ => Returned [1; 2; 3]%N)
          (fun _ _ => 0)
          (fun _ => Returned tt)
          (fun _ => Rejected "rgb").

(** A world in which the bytes are not a document. *)
Definition notADocumentWorld : World :=
  mkWorld (fun _ => Returned [0; 1]%N)
          (fun _ => Thrown (Rejected "Failed to parse PDF document"))
          (fun _ => Thrown (Rejected "Failed to fetch"))
          (fun _ _ => Returned tt)
          (fun _ => Returned tt)
          (fun _ _ => Returned [1; 2; 3]%N)
          (fun _ _ => 0)
          (fun _ => Returned tt)
          (fun _ => Rejected "rgb").

(** A world in which the document cannot be saved. *)
Definition unsavableWorld : World :=
  mkWorld (fun _ => Returned [37; 80; 68; 70]%N)
          (fun _ => Returned exampleDoc)
          (fun _ => Thrown (Rejected "Failed to fetch"))
          (fun _ _ => Returned tt)
          (fun _ => Returned tt)
          (fun _ _ => Thrown (Rejected "save failed"))
          (fun _ _ => 0)
          (fun _ => Returned tt)
          (fun _ => Rejected "rgb").

(** The standard font encodes its text in WinAnsi; here, the code units
    below U+0100. *)
Definition standardFontEncodes (d : DrawCall) : bool :=
  match withFont d with
  | HelveticaBold => forallb (fun c => (c <? 256)%N) (drawnText d)
  | CustomFont _ => true
  end.

(** A world in which [page.drawText] checks its call as pdf-lib does:
    first that the opacity is from 0 to 1, then that the font encodes the
    text. *)
Definition strictWorld : World :=
  mkWorld (fun _ => Returned [37; 80; 68; 70]%N)
          (fun _ => Returned exampleDoc)
          (fun _ => Thrown (Rejected "Failed to fetch"))
          (fun _ _ => Returned tt)
          (fun _ => Returned tt)
          (fun _ _ => Returned [1; 2; 3]%N)
          (fun _ _ => 0)
          (fun d => if negb (inRange01 (withOpacity d))
                    then Thrown (Rejected "opacity out of range")
                    else if standardFontEncodes d then Returned tt
                    else Thrown (Rejected "WinAnsi cannot encode"))
          (fun _ => Rejected "rgb").


End OrchestratorSpec.

(** ** Further vocabulary: positions *)

Module PositionBounds.
Import PositionGenerator.

(** The most positions a call can return at a density: the 5 base stamps,
    every candidate of the grid, of the two diagonals, and the 15 random
    ones. *)
Definition maxPositions (density : Z) : nat :=
  (5
   + (if (1 <? density)%Z
      then Z.to_nat ((Z.max 2 (density * 2) + 1) * (Z.max 2 (density * 2) + 1))
      else 0)
   + (if (4 <=? density)%Z then 2 * Z.to_nat (density * 2 + 1) else 0)
   + (if (density =? 5)%Z then extraWatermarks else 0))%nat.

(** A position as the random layer makes them. *)
Definition randomStamp (width height fontSize : Q) (p : StampPosition) : Prop :=
  0 <= x p <= width /\ 0 <= y p <= height /\
  fontSize * 0.8 <= size p <= fontSize * 1.2.

(** Where a stamp is, without its size. *)
Definition place (p : StampPosition) : Q * Q := (x p, y p).

End PositionBounds.

(** ** Further vocabulary: colours *)

Module ColorVocabulary.
Import JsString JsNumber ColorParser ColorSpec.

(** The upper-case form of an ASCII letter; other code units stay. *)
Definition toUpperCase (c : N) : N :=
  if ((97 <=? c) && (c <=? 122))%N then (c - 32)%N else c.

(** The tokens written one after the other with a comma between them. *)
Fixpoint joinComma (tokens : list jsstring) : jsstring :=
  match tokens with
  | [] => []
  | [tok] => tok
  | tok :: rest => tok ++ 44%N :: joinComma rest
  end.

(** A token has no comma in it. *)
Definition noComma (tok : jsstring) : Prop := ~ In 44%N tok.

(** The check that [parseInt(., 16)] reads a pair of hexadecimal digits
    and its upper-case form alike. *)
Definition sameUpper (c1 c2 : N) : bool :=
  match parseInt [c1; c2] 16, parseInt [toUpperCase c1; toUpperCase c2] 16 with
  | Some a, Some b => (a =? b)%Z
  | _, _ => false
  end.

(** The pair is ["0x"] or ["0X"]. *)
Definition isHexPrefix (c1 c2 : N) : bool :=
  ((c1 =? 48) && ((c2 =? 120) || (c2 =? 88)))%N.

End ColorVocabulary.

(** ** The coercion the page applies before the call *)

Module AppOptions.
Import JsString JsNumber Options.

(** [ensureNumberValues] of the page component: each numeric field of the
    shared [watermarkOptions] object is overwritten with its [parseFloat]
    or [parseInt]. *)
Definition ensureNumberValues (watermarkOptions : RawOptions) : RawOptions :=
  mkRaw (rawText watermarkOptions)
        (rawColor watermarkOptions)
        (Num (parseFloatOf (rawOpacity watermarkOptions)))
        (Num (ofInt (parseIntOf (rawFontSize watermarkOptions))))
        (Num (ofInt (parseIntOf (rawRotation watermarkOptions))))
        (Num (ofInt (parseIntOf (rawDensity watermarkOptions)))).


(** A number that is neither [NaN] nor zero. *)
Definition truthyNumber (v : number) : Prop :=
  match v with
  | NaN => False
  | Fin q => ~ q == 0
  | _ => True
  end.

End AppOptions.

(** ** Further vocabulary: the orchestrator *)

Module OrchestratorVocabulary.
Import JsString JsNumber ColorParser PositionGenerator Options Orchestrator.


(** The error is one that a collaborator raised: the file reader, the
    loading of the document, the embedding of the standard font, [rgb],
    [page.drawText] or the saving. *)
Definition raisedByCollaborator (w : World) (file : File) (e : exn) : Prop :=
  fileReader w file = Thrown e \/
  (exists fileData, PDFDocument_load w fileData = Thrown e) \/
  (exists pdfDoc, embedStandardFont w pdfDoc = Thrown e) \/
  (exists c, rgbAccepts c = false /\ e = rgbError w c) \/
  (exists d, page_drawText w d = Thrown e) \/
  (exists pdfDoc texts, save w pdfDoc texts = Thrown e).


(** A world without the font file and in which the standard font cannot
    be embedded either. *)
Definition noFontWorld : World :=
  mkWorld (fun _ => Returned [37; 80; 68; 70]%N)
          (fun _ => Returned (mkDoc [37; 80; 68; 70]%N [(600, 800); (600, 800)]))
          (fun _ => Returned (mkResponse false (js "Not Found") (Returned [])))
          (fun _ _ => Returned tt)
          (fun _ => Thrown (Rejected "embedFont failed"))
          (fun _ _ => Returned [1; 2; 3]%N)
          (fun _ _ => 0)
          (fun _ => Returned tt)
          (fun _ => Rejected "rgb").

End OrchestratorVocabulary.

(** ** The page component *)

Module App.
Import JsString JsNumber Options Orchestrator AppOptions.

(** A file picked in the file input, with its [type]. *)
Record PickedFile : Type := mkPicked { picked : File; fileType : jsstring }.

(** The refs and the reactive object of the component. *)
Record AppState : Type := mkApp {
  selectedFile : option PickedFile;
  isProcessing : bool;
  errorMessage : jsstring;
  successMessage : jsstring;
  watermarkOptions : RawOptions
}.

(** The initial [watermarkOptions], also what [resetForm] assigns. *)
Definition initialOptions : RawOptions :=
  mkRaw (Some [20005; 31105; 22797; 21046]%N) (Some (js "#000000"))
        (Num (Fin 0.9)) (numZ 50) (numZ 45) (numZ 2).

Definition initialState : AppState := mkApp None false [] [] initialOptions.

(** The three messages and the prefix of the fourth, as code units. *)
Definition msgInvalidFile : jsstring :=
  [35831; 36873; 25321; 26377; 25928; 30340; 80; 68; 70; 25991; 20214]%N.
Definition msgSelectFirst : jsstring :=
  [35831; 20808; 36873; 25321; 80; 68; 70; 25991; 20214]%N.
Definition msgSuccess : jsstring :=
  [27700; 21360; 28155; 21152; 25104; 21151; 65292; 25991; 20214; 24050;
   19979; 36733]%N.
Definition msgErrorPrefix : jsstring :=
  [22788; 29702; 80; 68; 70; 26102; 20986; 38169; 58; 32]%N.

(** [error.message] as the template string prints it: the message of an
    [Error]; "undefined" for an event, which has none. *)
Definition messageOf (e : exn) : jsstring :=
  match e with
  | Rejected reason => js reason
  | FontNotLoaded statusText =>
      [26080; 27861; 21152; 36733; 26412; 22320; 23383; 20307; 58; 32]%N
      ++ statusText
  | ErrorEvent => js "undefined"
  end.

(** [handleColorChange]: the colour becomes the value of the input. *)
Definition handleColorChange (value : jsstring) (st : AppState) : AppState :=
  mkApp (selectedFile st) (isProcessing st) (errorMessage st) (successMessage st)
        (mkRaw (rawText (watermarkOptions st)) (Some value)
               (rawOpacity (watermarkOptions st))
               (rawFontSize (watermarkOptions st))
               (rawRotation (watermarkOptions st))
               (rawDensity (watermarkOptions st))).

(** [a === b] on strings. *)
Fixpoint strictEquals (a b : jsstring) : bool :=
  match a, b with
  | [], [] => true
  | c :: a', d :: b' => (c =? d)%N && strictEquals a' b'
  | _, _ => false
  end.

(** [file.type === 'application/pdf'] *)
Definition isPdf (f : PickedFile) : bool :=
  strictEquals (fileType f) (js "application/pdf").

(** [handleFileChange]; the argument is [event.target.files[0]], absent
    when no file was picked. *)
Definition handleFileChange (file : option PickedFile) (st : AppState) : AppState :=
  match file with
  | Some f =>
      if isPdf f
      then mkApp (Some f) (isProcessing st) [] (successMessage st)
                 (watermarkOptions st)
      else mkApp None (isProcessing st) msgInvalidFile (successMessage st)
                 (watermarkOptions st)
  | None => mkApp None (isProcessing st) msgInvalidFile (successMessage st)
                  (watermarkOptions st)
  end.

(** [handleAddWatermark]: the state when the handler is done and what the
    call of [addWatermarkToPDF] did. *)
Definition handleAddWatermark (w : World) (st : AppState) : AppState * Effects :=
  match selectedFile st with
  | None =>
      (mkApp None (isProcessing st) msgSelectFirst (successMessage st)
             (watermarkOptions st),
       mkEffects [] [])
  | Some f =>
      let options := ensureNumberValues (watermarkOptions st) in
      match run (addWatermarkToPDF w (picked f) options) with
      | (done, Returned _) => (mkApp (Some f) false [] msgSuccess options, done)
      | (done, Thrown error) =>
          (mkApp (Some f) false (msgErrorPrefix ++ messageOf error) [] options,
           done)
      end
  end.

(** [resetForm] *)
Definition resetForm (st : AppState) : AppState :=
  mkApp None (isProcessing st) [] [] initialOptions.

(** What the user does on the page; [Input] is a write of a bound form
    field into [watermarkOptions].  The template disables every control
    while [isProcessing] is set, so no event arrives while a handler waits
    for [addWatermarkToPDF], and a handler is one step. *)
Inductive event : Type :=
| FileChange (file : option PickedFile)
| ColorChange (value : jsstring)
| Input (options : RawOptions)
| AddWatermark
| Reset.

(** One event: the next state and the downloads it triggered. *)
Definition step (w : World) (st : AppState) (ev : event)
    : AppState * list Download :=
  match ev with
  | FileChange file => (handleFileChange file st, [])
  | ColorChange value => (handleColorChange value st, [])
  | Input options =>
      (mkApp (selectedFile st) (isProcessing st) (errorMessage st)
             (successMessage st) options, [])
  | AddWatermark =>
      let '(st', done) := handleAddWatermark w st in (st', downloads done)
  | Reset => (resetForm st, [])
  end.

(** A sequence of events from a state, with all the downloads. *)
Fixpoint steps (w : World) (st : AppState) (evs : list event)
    : AppState * list Download :=
  match evs with
  | [] => (st, [])
  | ev :: evs' =>
      let '(st1, d1) := step w st ev in
      let '(st2, d2) := steps w st1 evs' in
      (st2, d1 ++ d2)
  end.

(** The number of clicks on the button that adds the watermark. *)
Definition clicks (evs : list event) : nat :=
  List.length (filter (fun ev => match ev with AddWatermark => true | _ => false end) evs).

(** A download of a PDF under a name that starts with "watermarked_". *)
Definition watermarkedPdf (d : Download) : Prop :=
  mimeType d = js "application/pdf" /\
  exists original, filename d = js "watermarked_" ++ original.

(** The selected file, if any, is a PDF. *)
Definition selectionIsPdf (st : AppState) : Prop :=
  match selectedFile st with
  | Some f => fileType f = js "application/pdf"
  | None => True
  end.

End App.

(** * Properties *)

Lemma Qltb_lt (a b : Q) : Qltb a b = true <-> a < b.
Proof.
  unfold Qltb. rewrite negb_true_iff. split; intros H.
  - apply Qnot_le_lt. intros Hle. apply Qle_bool_iff in Hle. congruence.
  - destruct (Qle_bool b a) eqn:E; [|reflexivity].
    apply Qle_bool_iff in E. exfalso. apply (Qlt_not_le _ _ H E).
Qed.

Lemma Qltb_ge (a b : Q) : Qltb a b = false <-> b <= a.
Proof.
  unfold Qltb. rewrite negb_false_iff. apply Qle_bool_iff.
Qed.

(** ** Properties of the position generator *)

Module PositionFacts.
Import PositionGenerator PositionSpec.

Lemma upto_length (n : Z) : (0 <= n + 1)%Z -> Z.of_nat (List.length (upto n)) = (n + 1)%Z.
Proof.
  intros H. unfold upto. rewrite length_map, length_seq. lia.
Qed.

Lemma upto_In (n i : Z) : In i (upto n) <-> (0 <= i <= n)%Z.
Proof.
  unfold upto. rewrite in_map_iff. split.
  - intros [k [<- Hk]]. apply in_seq in Hk. lia.
  - intros H. exists (Z.to_nat i). split; [lia|]. apply in_seq. lia.
Qed.

Lemma upto_NoDup (n : Z) : NoDup (upto n).
Proof.
  unfold upto. apply Injective_map_NoDup.
  - intros a b H. lia.
  - apply seq_NoDup.
Qed.

Lemma near_true (p q : StampPosition) :
  near (x q) (y q) p = true <-> close p q.
Proof.
  unfold near, close. rewrite andb_true_iff, !Qltb_lt. tauto.
Qed.

Lemma near_false (p q : StampPosition) :
  near (x q) (y q) p = false <-> ~ close p q.
Proof.
  rewrite <- near_true. destruct (near (x q) (y q) p); split; intros H;
    try reflexivity; try discriminate; try (intros C; discriminate).
  exfalso. apply H. reflexivity.
Qed.

(** *** The push that checks for duplicates *)

Lemma push_length_le fs l pxy :
  (List.length l <= List.length (pushUnlessDuplicate fs l pxy) <= S (List.length l))%nat.
Proof.
  unfold pushUnlessDuplicate. destruct (isDuplicate _ _ _).
  - lia.
  - rewrite length_app. simpl. lia.
Qed.

Lemma fold_push_length fs pts : forall l,
  (List.length l <= List.length (fold_left (pushUnlessDuplicate fs) pts l)
     <= List.length l + List.length pts)%nat.
Proof.
  induction pts as [|pt pts IH]; intros l; simpl.
  - lia.
  - specialize (IH (pushUnlessDuplicate fs l pt)).
    pose proof (push_length_le fs l pt). lia.
Qed.

Lemma separatedFrom_start (l : list StampPosition) :
  separatedFrom (List.length l) l.
Proof.
  intros i j p q Hij Hn _ Hq.
  assert (nth_error l j <> None) by congruence.
  apply nth_error_Some in H. lia.
Qed.

Lemma push_separated fs n l pxy :
  (n <= List.length l)%nat -> separatedFrom n l ->
  separatedFrom n (pushUnlessDuplicate fs l pxy).
Proof.
  intros Hn Hsep. unfold pushUnlessDuplicate.
  destruct (isDuplicate l (fst pxy) (snd pxy)) eqn:E; [exact Hsep|].
  intros i j p q Hij Hj Hp Hq.
  assert (Hjlen : (j < List.length (l ++ [mkPos (fst pxy) (snd pxy) fs]))%nat).
  { apply nth_error_Some. congruence. }
  rewrite length_app in Hjlen. simpl in Hjlen.
  destruct (Nat.eq_dec j (List.length l)) as [-> | Hne].
  - rewrite nth_error_app2 in Hq by lia. rewrite Nat.sub_diag in Hq.
    simpl in Hq. injection Hq as <-.
    rewrite nth_error_app1 in Hp by lia.
    apply near_false. simpl.
    unfold isDuplicate in E.
    destruct (near (fst pxy) (snd pxy) p) eqn:N; [|reflexivity].
    assert (existsb (near (fst pxy) (snd pxy)) l = true).
    { apply existsb_exists. exists p. split; [|exact N].
      eapply nth_error_In; eassumption. }
    congruence.
  - rewrite nth_error_app1 in Hq by lia.
    rewrite nth_error_app1 in Hp by lia.
    exact (Hsep i j p q Hij Hj Hp Hq).
Qed.

Lemma fold_push_separated fs n pts : forall l,
  (n <= List.length l)%nat -> separatedFrom n l ->
  separatedFrom n (fold_left (pushUnlessDuplicate fs) pts l).
Proof.
  induction pts as [|pt pts IH]; intros l Hn Hsep; simpl.
  - exact Hsep.
  - apply IH.
    + pose proof (push_length_le fs l pt). lia.
    + now apply push_separated.
Qed.

Lemma gridLayer_separated w h fs d n l :
  (n <= List.length l)%nat -> separatedFrom n l ->
  separatedFrom n (gridLayer w h fs d l).
Proof.
  intros Hn Hsep. unfold gridLayer. destruct (1 <? d)%Z; [|exact Hsep].
  now apply fold_push_separated.
Qed.

Lemma gridLayer_length w h fs d l :
  (List.length l <= List.length (gridLayer w h fs d l))%nat.
Proof.
  unfold gridLayer. destruct (1 <? d)%Z; [|lia].
  apply fold_push_length.
Qed.

Lemma diagonalLayer_separated w h fs d n l :
  (n <= List.length l)%nat -> separatedFrom n l ->
  separatedFrom n (diagonalLayer w h fs d l).
Proof.
  intros Hn Hsep. unfold diagonalLayer. destruct (4 <=? d)%Z; [|exact Hsep].
  apply fold_push_separated.
  - pose proof (fold_push_length fs (diagonal1 w h (d * 2)) l). lia.
  - now apply fold_push_separated.
Qed.

Lemma diagonalLayer_length w h fs d l :
  (List.length l <= List.length (diagonalLayer w h fs d l))%nat.
Proof.
  unfold diagonalLayer. destruct (4 <=? d)%Z; [|lia].
  pose proof (fold_push_length fs (diagonal1 w h (d * 2)) l).
  pose proof (fold_push_length fs (diagonal2 w h (d * 2))
    (fold_left (pushUnlessDuplicate fs) (diagonal1 w h (d * 2)) l)).
  lia.
Qed.


(** *** Counting what the grid loop keeps *)

Lemma hits_app l1 l2 pt : hits (l1 ++ l2) pt = hits l1 pt || hits l2 pt.
Proof. unfold hits, isDuplicate. apply existsb_app. Qed.

Lemma hits_none fs extra pt :
  (forall e, In e extra -> near (fst pt) (snd pt) (toPos fs e) = false) ->
  hits (map (toPos fs) extra) pt = false.
Proof.
  intros H. unfold hits, isDuplicate.
  destruct (existsb _ _) eqn:E; [|reflexivity].
  apply existsb_exists in E. destruct E as [p [Hin Hp]].
  apply in_map_iff in Hin. destruct Hin as [e [<- He]].
  rewrite (H e He) in Hp. discriminate.
Qed.

Section FoldLower.
Context {A : Type} (f : A -> Q * Q) (fs : Q) (l0 : list StampPosition).

(** Candidates that are pairwise apart are rejected only because of the
    positions the loop started with. *)
Lemma fold_push_lower : forall idx extra,
  NoDup idx ->
  (forall a b, In a idx -> In b idx -> a <> b ->
     near (fst (f b)) (snd (f b)) (toPos fs (f a)) = false) ->
  (forall e b, In e extra -> In b idx ->
     near (fst (f b)) (snd (f b)) (toPos fs e) = false) ->
  (List.length (l0 ++ map (toPos fs) extra) + List.length idx <=
   List.length (fold_left (pushUnlessDuplicate fs) (map f idx)
                          (l0 ++ map (toPos fs) extra))
     + List.length (filter (fun i => hits l0 (f i)) idx))%nat.
Proof.
  induction idx as [|i idx IH]; intros extra Hnd Hpair Hextra; simpl.
  - lia.
  - inversion Hnd as [|? ? Hnotin Hnd']; subst.
    assert (Hdup : isDuplicate (l0 ++ map (toPos fs) extra) (fst (f i)) (snd (f i))
                   = hits l0 (f i)).
    { change (hits (l0 ++ map (toPos fs) extra) (f i) = hits l0 (f i)).
      rewrite hits_app, hits_none, orb_false_r; [reflexivity|].
      intros e He. apply Hextra; [exact He | now left]. }
    unfold pushUnlessDuplicate at 2. rewrite Hdup.
    destruct (hits l0 (f i)) eqn:Hh.
    + simpl. specialize (IH extra Hnd').
      assert (X : (List.length (l0 ++ map (toPos fs) extra) + List.length idx <=
         List.length (fold_left (pushUnlessDuplicate fs) (map f idx)
           (l0 ++ map (toPos fs) extra)) +
         List.length (filter (fun i0 => hits l0 (f i0)) idx))%nat).
      { apply IH.
        - intros a b Ha Hb. apply Hpair; now right.
        - intros e b He Hb. apply Hextra; [exact He | now right]. }
      lia.
    + specialize (IH (extra ++ [f i]) Hnd').
      rewrite map_app, app_assoc in IH. simpl in IH.
      change (mkPos (fst (f i)) (snd (f i)) fs) with (toPos fs (f i)).
      assert (X : (List.length ((l0 ++ map (toPos fs) extra) ++ [toPos fs (f i)])
           + List.length idx <=
         List.length (fold_left (pushUnlessDuplicate fs) (map f idx)
           ((l0 ++ map (toPos fs) extra) ++ [toPos fs (f i)])) +
         List.length (filter (fun i0 => hits l0 (f i0)) idx))%nat).
      { apply IH.
        - intros a b Ha Hb. apply Hpair; now right.
        - intros e b He Hb. apply in_app_or in He. destruct He as [He | [<- | []]].
          + apply Hextra; [exact He | now right].
          + apply Hpair; [now left | now right |].
            intros ->. contradiction. }
      rewrite length_app in X. simpl in X. lia.
Qed.
End FoldLower.

Lemma filter_orb_length {A} (p q : A -> bool) (l : list A) :
  (List.length (filter (fun a => p a || q a) l)
     <= List.length (filter p l) + List.length (filter q l))%nat.
Proof.
  induction l as [|a l IH]; simpl; [lia|].
  destruct (p a), (q a); simpl; lia.
Qed.

(** The candidates rejected because of [l0] are at most those near each
    single element of [l0], added up. *)
Lemma hits_count_le {A} (f : A -> Q * Q) (k : nat) (idx : list A) : forall l0,
  (forall b, In b l0 ->
     (List.length (filter (fun i => near (fst (f i)) (snd (f i)) b) idx) <= k)%nat) ->
  (List.length (filter (fun i => hits l0 (f i)) idx) <= k * List.length l0)%nat.
Proof.
  induction l0 as [|b l0 IH]; intros H.
  - unfold hits, isDuplicate. simpl.
    assert (E : filter (fun _ : A => false) idx = []).
    { clear. induction idx; simpl; auto. }
    rewrite E. simpl. lia.
  - unfold hits, isDuplicate. simpl existsb.
    pose proof (filter_orb_length
      (fun i => near (fst (f i)) (snd (f i)) b)
      (fun i => hits l0 (f i)) idx) as Ho.
    unfold hits, isDuplicate in Ho, IH.
    specialize (H b (or_introl eq_refl)) as Hb.
    assert (IH' := IH (fun b' Hb' => H b' (or_intror Hb'))).
    simpl List.length. lia.
Qed.

(** *** The grid as a product of rows and columns *)

Lemma NoDup_list_prod {A B} (l : list A) (l' : list B) :
  NoDup l -> NoDup l' -> NoDup (list_prod l l').
Proof.
  intros Hl Hl'. induction Hl as [|a l Hnotin Hl IH]; simpl.
  - constructor.
  - apply NoDup_app.
    + apply Injective_map_NoDup; [|exact Hl'].
      intros u v E. now injection E.
    + exact IH.
    + intros [u v] Hin Hin'. apply in_map_iff in Hin.
      destruct Hin as [w [E _]]. injection E as <- _.
      apply in_prod_iff in Hin'. now destruct Hin'.
Qed.

Lemma flat_map_prod (sx sy : Q) (cols : list Z) : forall rows,
  flat_map (fun row => map (fun col => (inject_Z col * sx, inject_Z row * sy)) cols) rows
  = map (gridPoint sx sy) (list_prod rows cols).
Proof.
  induction rows as [|r rows IH]; simpl; [reflexivity|].
  rewrite map_app, map_map, IH. reflexivity.
Qed.

Lemma gridPoints_prod (w h : Q) (g : Z) :
  gridPoints w h g =
  map (gridPoint (w / inject_Z g) (h / inject_Z g)) (list_prod (upto g) (upto g)).
Proof. unfold gridPoints. cbv zeta. apply flat_map_prod. Qed.

Lemma filter_false {A} (l : list A) : filter (fun _ => false) l = [].
Proof. induction l; simpl; auto. Qed.

Lemma filter_prod_length {A B} (p : A -> bool) (q : B -> bool) (l : list A) (l' : list B) :
  List.length (filter (fun ab => p (fst ab) && q (snd ab)) (list_prod l l'))
  = (List.length (filter p l) * List.length (filter q l'))%nat.
Proof.
  induction l as [|a l IH]; simpl; [reflexivity|].
  rewrite filter_app, length_app, IH, filter_map_swap, length_map. simpl.
  destruct (p a); simpl.
  - reflexivity.
  - rewrite filter_false. reflexivity.
Qed.

(** At most two integers [c] have [c * s] within 50 of a given value when
    the spacing [s] is at least 50. *)
Lemma axis_two (s b : Q) (l : list Z) :
  50 <= s -> NoDup l ->
  (List.length (filter (fun c => Qltb (Qabs (b - inject_Z c * s)) 50) l) <= 2)%nat.
Proof.
  intros Hs Hnd.
  pose proof (NoDup_filter (fun c => Qltb (Qabs (b - inject_Z c * s)) 50) Hnd) as Hnd'.
  assert (Hall : forall c, In c (filter (fun c => Qltb (Qabs (b - inject_Z c * s)) 50) l) ->
             Qabs (b - inject_Z c * s) < 50).
  { intros c Hc. apply filter_In in Hc. now apply Qltb_lt. }
  assert (Hclose : forall c c', Qabs (b - inject_Z c * s) < 50 ->
            Qabs (b - inject_Z c' * s) < 50 -> (c' < c + 2)%Z).
  { intros c c' Hc Hc'. destruct (Z_lt_le_dec c' (c + 2)) as [|Hge]; [assumption|].
    exfalso. rewrite Zle_Qle, inject_Z_plus in Hge.
    apply Qabs_Qlt_condition in Hc, Hc'.
    change (inject_Z 2) with 2 in Hge. nra. }
  destruct (filter _ l) as [|c1 [|c2 [|c3 r]]]; simpl; try lia.
  exfalso.
  assert (H1 := Hall c1 (or_introl eq_refl)).
  assert (H2 := Hall c2 (or_intror (or_introl eq_refl))).
  assert (H3 := Hall c3 (or_intror (or_intror (or_introl eq_refl)))).
  inversion Hnd' as [|? ? N1 Hnd1]; subst.
  inversion Hnd1 as [|? ? N2 Hnd2]; subst.
  assert (c1 <> c2) by (intros ->; apply N1; now left).
  assert (c1 <> c3) by (intros ->; apply N1; right; now left).
  assert (c2 <> c3) by (intros ->; apply N2; now left).
  pose proof (Hclose c1 c2 H1 H2). pose proof (Hclose c2 c1 H2 H1).
  pose proof (Hclose c1 c3 H1 H3). pose proof (Hclose c3 c1 H3 H1).
  pose proof (Hclose c2 c3 H2 H3). pose proof (Hclose c3 c2 H3 H2).
  lia.
Qed.

(** One position rules out at most four points of a grid whose spacing is
    at least 50 on both axes. *)
Lemma grid_near_four (sx sy : Q) (g : Z) (b : StampPosition) :
  50 <= sx -> 50 <= sy ->
  (List.length (filter (fun rc => near (fst (gridPoint sx sy rc))
                                       (snd (gridPoint sx sy rc)) b)
                  (list_prod (upto g) (upto g))) <= 4)%nat.
Proof.
  intros Hx Hy.
  set (p := fun r => Qltb (Qabs (y b - inject_Z r * sy)) 50).
  set (q := fun c => Qltb (Qabs (x b - inject_Z c * sx)) 50).
  assert (E : forall rc : Z * Z,
    near (fst (gridPoint sx sy rc)) (snd (gridPoint sx sy rc)) b =
    p (fst rc) && q (snd rc)).
  { intros [r c]. unfold near, gridPoint, p, q. simpl. apply andb_comm. }
  rewrite (filter_ext _ _ E), (filter_prod_length p q).
  unfold p, q.
  pose proof (axis_two sy (y b) (upto g) Hy (upto_NoDup g)).
  pose proof (axis_two sx (x b) (upto g) Hx (upto_NoDup g)).
  nia.
Qed.

(** Two different points of such a grid are never duplicates of one
    another. *)
Lemma grid_apart (sx sy fs : Q) (a b : Z * Z) :
  50 <= sx -> 50 <= sy -> a <> b ->
  near (fst (gridPoint sx sy b)) (snd (gridPoint sx sy b))
       (toPos fs (gridPoint sx sy a)) = false.
Proof.
  intros Hx Hy Hab. destruct a as [r c], b as [r' c'].
  unfold near, gridPoint, toPos. cbn [fst snd x y].
  apply andb_false_iff.
  destruct (Z.eq_dec c c') as [-> | Hc].
  - right. assert (Hr : r <> r') by congruence.
    apply Qltb_ge.
    destruct (Z_lt_le_dec r r') as [Hlt | Hge].
    + assert (H1 : (r + 1 <= r')%Z) by lia.
      rewrite Zle_Qle, inject_Z_plus in H1. change (inject_Z 1) with 1 in H1.
      apply Qabs_case; intros; nra.
    + assert (H1 : (r' + 1 <= r)%Z) by lia.
      rewrite Zle_Qle, inject_Z_plus in H1. change (inject_Z 1) with 1 in H1.
      apply Qabs_case; intros; nra.
  - left. apply Qltb_ge.
    destruct (Z_lt_le_dec c c') as [Hlt | Hge].
    + assert (H1 : (c + 1 <= c')%Z) by lia.
      rewrite Zle_Qle, inject_Z_plus in H1. change (inject_Z 1) with 1 in H1.
      apply Qabs_case; intros; nra.
    + assert (H1 : (c' + 1 <= c)%Z) by lia.
      rewrite Zle_Qle, inject_Z_plus in H1. change (inject_Z 1) with 1 in H1.
      apply Qabs_case; intros; nra.
Qed.

(** The grid loop on a page whose grid spacing is at least 50: of the
    [(g+1)^2] candidates at most four per starting position are rejected. *)
Lemma grid_fold_lower (w h fs : Q) (g : Z) (l0 : list StampPosition) :
  (0 <= g)%Z -> 50 <= w / inject_Z g -> 50 <= h / inject_Z g ->
  (List.length l0 + Z.to_nat ((g + 1) * (g + 1)) <=
   List.length (fold_left (pushUnlessDuplicate fs) (gridPoints w h g) l0)
     + 4 * List.length l0)%nat.
Proof.
  intros Hg Hx Hy. rewrite gridPoints_prod.
  set (sx := w / inject_Z g) in *. set (sy := h / inject_Z g) in *.
  pose proof (fold_push_lower (gridPoint sx sy) fs l0
                (list_prod (upto g) (upto g)) []) as L.
  simpl in L. rewrite app_nil_r in L.
  assert (X : (List.length l0 + List.length (list_prod (upto g) (upto g)) <=
     List.length (fold_left (pushUnlessDuplicate fs)
        (map (gridPoint sx sy) (list_prod (upto g) (upto g))) l0) +
     List.length (filter (fun i => hits l0 (gridPoint sx sy i))
        (list_prod (upto g) (upto g))))%nat).
  { apply L.
    - apply NoDup_list_prod; apply upto_NoDup.
    - intros a b _ _ Hab. now apply grid_apart.
    - intros e b []. }
  pose proof (hits_count_le (gridPoint sx sy) 4 (list_prod (upto g) (upto g)) l0
                (fun b _ => grid_near_four sx sy g b Hx Hy)) as Hc.
  rewrite length_prod in X.
  pose proof (upto_length g ltac:(lia)) as Hlen.
  assert (Z.to_nat ((g + 1) * (g + 1)) =
          (List.length (upto g) * List.length (upto g))%nat) by nia.
  lia.
Qed.

(** *** The base layout *)

(** C1. At density 1, for a page of positive width and height and a
    positive font size, [generateWatermarkPositions] returns exactly five
    positions: the centre stamp at (width/2, height/2) of size
    fontSize * 1.5, then the four corner stamps of size fontSize at
    (100, height-100), (width-100, height-100), (100, 100) and
    (width-100, 100), in that order. *)
Theorem generateWatermarkPositions_density_1
    (random : nat -> Q) (width height fontSize : Q) :
  0 < width -> 0 < height -> 0 < fontSize ->
  List.length (generateWatermarkPositions random width height fontSize 1) = 5%nat /\
  generateWatermarkPositions random width height fontSize 1 =
    [ mkPos (width / 2) (height / 2) (fontSize * 1.5);
      mkPos 100 (height - 100) fontSize;
      mkPos (width - 100) (height - 100) fontSize;
      mkPos 100 100 fontSize;
      mkPos (width - 100) 100 fontSize ].
Proof.
  intros _ _ _. split; reflexivity.
Qed.

Lemma generateWatermarkPositions_density_1_witness :
  List.length (generateWatermarkPositions (fun _ => 0) 600 800 40 1) = 5%nat /\
  generateWatermarkPositions (fun _ => 0) 600 800 40 1 =
    [ mkPos (600 / 2) (800 / 2) (40 * 1.5);
      mkPos 100 (800 - 100) 40;
      mkPos (600 - 100) (800 - 100) 40;
      mkPos 100 100 40;
      mkPos (600 - 100) 100 40 ].
Proof.
  apply (generateWatermarkPositions_density_1 (fun _ => 0) 600 800 40);
    reflexivity.
Defined.

(** *** Duplicate exclusion *)

Lemma basePositions_length w h fs : List.length (basePositions w h fs) = 5%nat.
Proof. reflexivity. Qed.

Lemma nonRandom_prefix random w h fs d j :
  (j < List.length (nonRandomPositions w h fs d))%nat ->
  nth_error (generateWatermarkPositions random w h fs d) j
  = nth_error (nonRandomPositions w h fs d) j.
Proof.
  intros Hj. unfold generateWatermarkPositions. now rewrite nth_error_app1.
Qed.

Lemma nonRandomPositions_separated w h fs d :
  separatedFrom 5 (nonRandomPositions w h fs d).
Proof.
  unfold nonRandomPositions.
  apply diagonalLayer_separated.
  - pose proof (gridLayer_length w h fs d (basePositions w h fs)) as G.
    rewrite basePositions_length in G. exact G.
  - apply gridLayer_separated; [rewrite basePositions_length; lia|].
    rewrite <- (basePositions_length w h fs).
    apply separatedFrom_start.
Qed.

(** C2, as stated, fails: on a 240 x 240 page at density 1 the centre stamp
    (120, 120) and the corner stamp (100, 140) are two different non-random
    positions less than 50 apart on both axes. *)
Lemma base_stamps_close_on_small_page :
  exists i j p q,
    i <> j /\
    nth_error (generateWatermarkPositions (fun _ => 0) 240 240 10 1) i = Some p /\
    nth_error (generateWatermarkPositions (fun _ => 0) 240 240 10 1) j = Some q /\
    ~ x p == x q /\ ~ y p == y q /\
    Qabs (x p - x q) < 50 /\ Qabs (y p - y q) < 50.
Proof.
  exists 0%nat, 1%nat, (mkPos (240 / 2) (240 / 2) (10 * 1.5)), (mkPos 100 (240 - 100) 10).
  repeat split; try reflexivity; try discriminate.
Qed.

(** C2, amended.  For all width, height, font size and density, a non-random
    position that the grid or diagonal loops added (index 5 and above) is
    never less than 50 units away on both axes from a position before it
    in the returned list.  Only pairs among the five base stamps, which are
    pushed without the check, can be that close. *)
Theorem added_positions_separated
    (random : nat -> Q) (width height fontSize : Q) (density : Z)
    (i j : nat) (p q : StampPosition) :
  (i < j)%nat -> (5 <= j)%nat ->
  (j < List.length (nonRandomPositions width height fontSize density))%nat ->
  nth_error (generateWatermarkPositions random width height fontSize density) i = Some p ->
  nth_error (generateWatermarkPositions random width height fontSize density) j = Some q ->
  ~ (Qabs (x p - x q) < 50 /\ Qabs (y p - y q) < 50).
Proof.
  intros Hij H5 Hj Hp Hq.
  rewrite nonRandom_prefix in Hp by lia.
  rewrite nonRandom_prefix in Hq by lia.
  exact (nonRandomPositions_separated width height fontSize density i j p q Hij H5 Hp Hq).
Qed.

Lemma added_positions_separated_witness :
  ~ (Qabs (100 - 0) < 50 /\ Qabs (100 - 0) < 50).
Proof.
  apply (added_positions_separated (fun _ => 0) 600 800 40 2 3 5
           (mkPos 100 100 40) (mkPos (inject_Z 0 * (600 / inject_Z 4))
                                     (inject_Z 0 * (800 / inject_Z 4)) 40)).
  - lia.
  - lia.
  - vm_compute. lia.
  - vm_compute. reflexivity.
  - vm_compute. reflexivity.
Defined.

(** *** Density and the number of positions *)

Lemma gridPoints_length w h g :
  (0 <= g)%Z -> List.length (gridPoints w h g) = Z.to_nat ((g + 1) * (g + 1)).
Proof.
  intros Hg. rewrite gridPoints_prod, length_map, length_prod.
  pose proof (upto_length g ltac:(lia)). nia.
Qed.

Lemma count_density_2_le w h fs : (nonRandomCount w h fs 2 <= 30)%nat.
Proof.
  unfold nonRandomCount, nonRandomPositions, diagonalLayer, gridLayer.
  change (4 <=? 2)%Z with false. change (1 <? 2)%Z with true.
  change (Z.max 2 (2 * 2)) with 4%Z. cbv iota zeta.
  pose proof (fold_push_length fs (gridPoints w h 4) (basePositions w h fs)) as L.
  rewrite gridPoints_length, basePositions_length in L by lia.
  change (Z.to_nat ((4 + 1) * (4 + 1))) with 25%nat in L. lia.
Qed.

Lemma count_density_3_le w h fs : (nonRandomCount w h fs 3 <= 54)%nat.
Proof.
  unfold nonRandomCount, nonRandomPositions, diagonalLayer, gridLayer.
  change (4 <=? 3)%Z with false. change (1 <? 3)%Z with true.
  change (Z.max 2 (3 * 2)) with 6%Z. cbv iota zeta.
  pose proof (fold_push_length fs (gridPoints w h 6) (basePositions w h fs)) as L.
  rewrite gridPoints_length, basePositions_length in L by lia.
  change (Z.to_nat ((6 + 1) * (6 + 1))) with 49%nat in L. lia.
Qed.

Lemma count_density_3_ge w h fs :
  300 <= w -> 300 <= h -> (34 <= nonRandomCount w h fs 3)%nat.
Proof.
  intros Hw Hh.
  unfold nonRandomCount, nonRandomPositions, diagonalLayer, gridLayer.
  change (4 <=? 3)%Z with false. change (1 <? 3)%Z with true.
  change (Z.max 2 (3 * 2)) with 6%Z. cbv iota zeta.
  pose proof (grid_fold_lower w h fs 6 (basePositions w h fs)) as L.
  assert (X : 50 <= w / inject_Z 6) by (apply Qle_shift_div_l; [reflexivity | change (inject_Z 6) with 6; lra]).
  assert (Y : 50 <= h / inject_Z 6) by (apply Qle_shift_div_l; [reflexivity | change (inject_Z 6) with 6; lra]).
  specialize (L ltac:(lia) X Y). rewrite basePositions_length in L.
  change (Z.to_nat ((6 + 1) * (6 + 1))) with 49%nat in L. lia.
Qed.

Lemma count_density_4_ge w h fs :
  400 <= w -> 400 <= h -> (66 <= nonRandomCount w h fs 4)%nat.
Proof.
  intros Hw Hh.
  unfold nonRandomCount, nonRandomPositions.
  pose proof (diagonalLayer_length w h fs 4
                (gridLayer w h fs 4 (basePositions w h fs))) as D.
  assert (G : (66 <= List.length (gridLayer w h fs 4 (basePositions w h fs)))%nat).
  { unfold gridLayer.
    change (1 <? 4)%Z with true.
    change (Z.max 2 (4 * 2)) with 8%Z. cbv iota zeta.
    pose proof (grid_fold_lower w h fs 8 (basePositions w h fs)) as L.
    assert (X : 50 <= w / inject_Z 8)
      by (apply Qle_shift_div_l; [reflexivity | change (inject_Z 8) with 8; lra]).
    assert (Y : 50 <= h / inject_Z 8)
      by (apply Qle_shift_div_l; [reflexivity | change (inject_Z 8) with 8; lra]).
    specialize (L ltac:(lia) X Y). rewrite basePositions_length in L.
    change (Z.to_nat ((8 + 1) * (8 + 1))) with 81%nat in L.
    revert L. generalize (List.length (fold_left (pushUnlessDuplicate fs)
                            (gridPoints w h 8) (basePositions w h fs))).
    intros n L. lia. }
  revert D G.
  generalize (List.length (gridLayer w h fs 4 (basePositions w h fs))).
  generalize (List.length (diagonalLayer w h fs 4
                (gridLayer w h fs 4 (basePositions w h fs)))).
  intros n m D G. lia.
Qed.

(** C3, as stated, fails in both halves: on a 280 x 280 page density 3
    yields fewer non-random positions (17) than density 2 (21), and on a
    10 x 10 page densities 3 and 4 both yield only the 5 base stamps. *)
Lemma density_count_not_monotone :
  (nonRandomCount 280 280 10 3 < nonRandomCount 280 280 10 2)%nat /\
  nonRandomCount 10 10 10 3 = nonRandomCount 10 10 10 4.
Proof.
  split; vm_compute; [lia | reflexivity].
Qed.

(** C3, amended.  On a page at least 400 units wide and 400 units high (so
    that the grid spacing at densities 2, 3 and 4 is at least the 50-unit
    exclusion distance), and for every font size, the number of non-random
    positions at density 2 is at most that at density 3, which is strictly
    less than that at density 4. *)
Theorem density_count_monotone_on_large_page (width height fontSize : Q) :
  400 <= width -> 400 <= height ->
  (nonRandomCount width height fontSize 2 <= nonRandomCount width height fontSize 3)%nat /\
  (nonRandomCount width height fontSize 3 < nonRandomCount width height fontSize 4)%nat.
Proof.
  intros Hw Hh.
  pose proof (count_density_2_le width height fontSize).
  pose proof (count_density_3_le width height fontSize).
  pose proof (count_density_3_ge width height fontSize ltac:(lra) ltac:(lra)).
  pose proof (count_density_4_ge width height fontSize Hw Hh).
  lia.
Qed.

Lemma density_count_monotone_on_large_page_witness :
  (nonRandomCount 595 842 40 2 <= nonRandomCount 595 842 40 3)%nat /\
  (nonRandomCount 595 842 40 3 < nonRandomCount 595 842 40 4)%nat.
Proof.
  apply (density_count_monotone_on_large_page 595 842 40); vm_compute; discriminate.
Defined.
End PositionFacts.

(** ** Properties of the colour parser *)

Module ColorFacts.
Import JsString JsNumber ColorParser ColorSpec.

(** *** Clamping *)

Lemma clamp01_cases (v : number) :
  match v with
  | NaN => clamp01 v = NaN
  | PosInf => clamp01 v = Fin 1
  | NegInf => clamp01 v = Fin 0
  | Fin q => (q < 0 /\ clamp01 v = Fin 0) \/
             (0 <= q <= 1 /\ (clamp01 v = Fin q \/ (q == 0 /\ clamp01 v = Fin 0)
                                                \/ (q == 1 /\ clamp01 v = Fin 1))) \/
             (1 < q /\ clamp01 v = Fin 1)
  end.
Proof.
  destruct v as [|q| |]; try reflexivity.
  unfold clamp01, Math_min, Math_max.
  destruct (Qltb q 1) eqn:E1.
  - apply Qltb_lt in E1. destruct (Qltb 0 q) eqn:E0.
    + apply Qltb_lt in E0. right; left. split; [lra|]. now left.
    + apply Qltb_ge in E0. destruct (Qlt_le_dec q 0) as [Hlt | Hge].
      * left. now split.
      * right; left. split; [lra|]. right; left. split; [lra | reflexivity].
  - apply Qltb_ge in E1.
    assert (E0 : Qltb 0 1 = true) by reflexivity. rewrite E0.
    destruct (Qlt_le_dec 1 q) as [Hlt | Hge].
    + right; right. now split.
    + right; left. split; [lra|]. right; right. split; [lra | reflexivity].
Qed.

Lemma clamp01_unit_or_NaN (v : number) : clamp01 v = NaN \/ inUnit (clamp01 v).
Proof.
  pose proof (clamp01_cases v) as H. destruct v as [|q| |].
  - now left.
  - right. destruct H as [[_ ->] | [[Hq [-> | [[_ ->] | [_ ->]]]] | [_ ->]]];
      simpl; lra.
  - right. rewrite H. simpl. lra.
  - right. rewrite H. simpl. lra.
Qed.

Lemma clamp01_not_NaN (v : number) : isNaN v = false -> inUnit (clamp01 v).
Proof.
  intros H. destruct (clamp01_unit_or_NaN v) as [E | U]; [|exact U].
  destruct v; try discriminate; pose proof (clamp01_cases (Fin q)) as C;
    simpl in C; rewrite E in C; intuition discriminate.
Qed.

Lemma clamp01_in_unit (q : Q) : 0 <= q <= 1 -> numEq (clamp01 (Fin q)) (Fin q).
Proof.
  intros Hq. pose proof (clamp01_cases (Fin q)) as H. simpl in H.
  destruct H as [[Hn _] | [[_ [-> | [[E ->] | [E ->]]]] | [Hn _]]];
    simpl; try lra; try reflexivity; symmetry; exact E.
Qed.

(** *** The shape of the result on each branch *)

Lemma parseColor_six (r1 r2 g1 g2 b1 b2 : N) :
  parseColor (hash [r1; r2; g1; g2; b1; b2]) =
  rgb (clamp01 (channel [r1; r2])) (clamp01 (channel [g1; g2]))
      (clamp01 (channel [b1; b2])).
Proof. reflexivity. Qed.

Lemma parseColor_three (r g b : N) :
  parseColor (hash [r; g; b]) =
  rgb (clamp01 (channel [r; r])) (clamp01 (channel [g; g]))
      (clamp01 (channel [b; b])).
Proof. reflexivity. Qed.

Lemma parseColorTrace_hex_invalid (s : jsstring) :
  startsWith s (js "#") = true ->
  List.length (substringFrom s 1) <> 3%nat ->
  List.length (substringFrom s 1) <> 6%nat ->
  parseColorTrace s = ([WarnHexFormat; LogHex], black).
Proof.
  intros H H3 H6. unfold parseColorTrace. rewrite H.
  apply Nat.eqb_neq in H3, H6. rewrite H3, H6. reflexivity.
Qed.

Lemma parseColorTrace_hex_valid (s : jsstring) :
  startsWith s (js "#") = true ->
  List.length (substringFrom s 1) = 3%nat \/ List.length (substringFrom s 1) = 6%nat ->
  fst (parseColorTrace s) = [LogHex].
Proof.
  intros H [E | E]; unfold parseColorTrace; rewrite H, E; reflexivity.
Qed.

Lemma parseColorTrace_rgb_invalid (s : jsstring) :
  startsWith s (js "#") = false ->
  (3 <=? List.length (map Number (split 44 s)))%nat
    && negb (existsb isNaN (map Number (split 44 s))) = false ->
  parseColorTrace s = ([WarnRgbFormat], black).
Proof.
  intros H C. unfold parseColorTrace. rewrite H, C. reflexivity.
Qed.

Lemma parseColorTrace_rgb_valid (s : jsstring) :
  startsWith s (js "#") = false ->
  (3 <=? List.length (map Number (split 44 s)))%nat
    && negb (existsb isNaN (map Number (split 44 s))) = true ->
  parseColorTrace s =
    ([LogRgb],
     rgb (clamp01 (clamp01 (nth 0 (map Number (split 44 s)) NaN)))
         (clamp01 (clamp01 (nth 1 (map Number (split 44 s)) NaN)))
         (clamp01 (clamp01 (nth 2 (map Number (split 44 s)) NaN)))).
Proof.
  intros H C. unfold parseColorTrace. rewrite H, C. reflexivity.
Qed.

(** The test of the comma-separated branch fails exactly when there are
    fewer than three tokens or one of them is not a number. *)
Lemma rgb_test_false (s : jsstring) :
  (3 <=? List.length (map Number (split 44 s)))%nat
    && negb (existsb isNaN (map Number (split 44 s))) = false
  <->
  ((List.length (split 44 s) < 3)%nat \/
   exists tok, In tok (split 44 s) /\ Number tok = NaN).
Proof.
  rewrite andb_false_iff, negb_false_iff, length_map, Nat.leb_gt, existsb_exists.
  split; (intros [H | H]; [left; exact H | right]).
  - destruct H as [v [Hin Hv]]. apply in_map_iff in Hin.
    destruct Hin as [tok [<- Hin]]. exists tok. split; [exact Hin|].
    destruct (Number tok); try discriminate. reflexivity.
  - destruct H as [tok [Hin Hv]]. exists (Number tok). split.
    + now apply in_map.
    + now rewrite Hv.
Qed.

Lemma warned_iff_invalid (s : jsstring) : invalidColor s <-> warned s = true.
Proof.
  unfold invalidColor, warned. split.
  - intros [[H [H3 H6]] | [H C]].
    + now rewrite parseColorTrace_hex_invalid.
    + apply rgb_test_false in C. now rewrite parseColorTrace_rgb_invalid.
  - intros W. destruct (startsWith s (js "#")) eqn:H.
    + left. split; [reflexivity|].
      destruct (Nat.eq_dec (List.length (substringFrom s 1)) 3) as [E3 | N3].
      { rewrite (parseColorTrace_hex_valid s H (or_introl E3)) in W. discriminate. }
      destruct (Nat.eq_dec (List.length (substringFrom s 1)) 6) as [E6 | N6].
      { rewrite (parseColorTrace_hex_valid s H (or_intror E6)) in W. discriminate. }
      now split.
    + right. split; [reflexivity|]. apply rgb_test_false.
      destruct ((3 <=? List.length (map Number (split 44 s)))%nat
                && negb (existsb isNaN (map Number (split 44 s)))) eqn:C;
        [|reflexivity].
      rewrite (parseColorTrace_rgb_valid s H C) in W. discriminate.
Qed.

Lemma invalid_black (s : jsstring) : invalidColor s -> parseColor s = black.
Proof.
  unfold parseColor. intros [[H [H3 H6]] | [H C]].
  - now rewrite parseColorTrace_hex_invalid.
  - apply rgb_test_false in C. now rewrite parseColorTrace_rgb_invalid.
Qed.

(** *** Hexadecimal digits *)

Lemma isHexDigit_In (c : N) : isHexDigit c = true -> In c hexDigits.
Proof.
  unfold isHexDigit, hexDigits. intros H.
  rewrite !orb_true_iff, !andb_true_iff, !N.leb_le in H.
  apply in_map_iff. exists (N.to_nat c). split; [lia|].
  rewrite !in_app_iff, !in_seq. lia.
Qed.

Lemma pairOk_all :
  forallb (fun c1 => forallb (pairOk c1) hexDigits) hexDigits = true.
Proof. vm_compute. reflexivity. Qed.

Lemma parseInt_hex_pair (c1 c2 : N) :
  isHexDigit c1 = true -> isHexDigit c2 = true ->
  parseInt [c1; c2] 16 = Some (hexToInt c1 c2) /\
  (0 <= hexToInt c1 c2 <= 255)%Z.
Proof.
  intros H1 H2. apply isHexDigit_In in H1, H2.
  pose proof pairOk_all as A. rewrite forallb_forall in A.
  specialize (A c1 H1). rewrite forallb_forall in A. specialize (A c2 H2).
  unfold pairOk in A. destruct (parseInt [c1; c2] 16) as [z|]; [|discriminate].
  rewrite !andb_true_iff in A. destruct A as [[E L] U].
  apply Z.eqb_eq in E. apply Z.leb_le in L, U. subst z. split; [reflexivity | lia].
Qed.

Lemma channel_hex_pair (c1 c2 : N) :
  isHexDigit c1 = true -> isHexDigit c2 = true ->
  numEq (clamp01 (channel [c1; c2])) (Fin (inject_Z (hexToInt c1 c2) / 255)).
Proof.
  intros H1 H2. destruct (parseInt_hex_pair c1 c2 H1 H2) as [E [L U]].
  unfold channel. rewrite E. simpl ofInt. simpl divideBy.
  apply clamp01_in_unit.
  rewrite Zle_Qle in L, U. change (inject_Z 0) with 0 in L.
  change (inject_Z 255) with 255 in U.
  split.
  - apply Qle_shift_div_l; [reflexivity | lra].
  - apply Qle_shift_div_r; [reflexivity | lra].
Qed.

(** *** The three claims about [parseColor] *)

(** Every channel of the result is [NaN] or lies in [0,1]; it lies in
    [0,1] whenever the input does not start with ['#']. *)
Lemma parseColor_channels (s : jsstring) :
  (red (parseColor s) = NaN \/ inUnit (red (parseColor s))) /\
  (green (parseColor s) = NaN \/ inUnit (green (parseColor s))) /\
  (blue (parseColor s) = NaN \/ inUnit (blue (parseColor s))).
Proof.
  unfold parseColor, parseColorTrace.
  destruct (startsWith s (js "#")).
  - destruct (List.length (substringFrom s 1) =? 3)%nat;
      [|destruct (List.length (substringFrom s 1) =? 6)%nat];
      simpl; repeat split; apply clamp01_unit_or_NaN.
  - destruct ((3 <=? List.length (map Number (split 44 s)))%nat
              && negb (existsb isNaN (map Number (split 44 s))));
      simpl; repeat split; apply clamp01_unit_or_NaN.
Qed.

Lemma nth_not_NaN (l : list number) (i : nat) :
  (i < List.length l)%nat -> existsb isNaN l = false -> isNaN (nth i l NaN) = false.
Proof.
  intros Hi H. destruct (isNaN (nth i l NaN)) eqn:E; [|reflexivity].
  assert (existsb isNaN l = true).
  { apply existsb_exists. exists (nth i l NaN). split; [now apply nth_In | exact E]. }
  congruence.
Qed.

Lemma clamp01_twice_unit (v : number) :
  isNaN v = false -> inUnit (clamp01 (clamp01 v)).
Proof.
  intros H. apply clamp01_not_NaN. pose proof (clamp01_not_NaN v H) as U.
  destruct (clamp01 v); try contradiction. reflexivity.
Qed.

Lemma parseColor_rgb_in_unit (s : jsstring) :
  startsWith s (js "#") = false ->
  inUnit (red (parseColor s)) /\ inUnit (green (parseColor s)) /\
  inUnit (blue (parseColor s)).
Proof.
  intros H. unfold parseColor.
  destruct ((3 <=? List.length (map Number (split 44 s)))%nat
            && negb (existsb isNaN (map Number (split 44 s)))) eqn:C.
  - rewrite (parseColorTrace_rgb_valid s H C). cbn [snd red green blue].
    apply andb_true_iff in C. destruct C as [L N].
    apply Nat.leb_le in L. apply negb_true_iff in N.
    repeat split; apply clamp01_twice_unit; apply nth_not_NaN; (lia || exact N).
  - rewrite (parseColorTrace_rgb_invalid s H C).
    repeat split; simpl; lra.
Qed.

Lemma parseColor_fractional_example :
  rgbEq (parseColor (js "2,-1,0.5")) (rgb (Fin 1) (Fin 0) (Fin 0.5)).
Proof. vm_compute. repeat split. Qed.

(** C4.  The claim that every channel of [parseColor s] lies in [0,1] for
    every input string fails on the code for a ['#'] string whose digits
    are not hexadecimal: [parseInt] gives [NaN], the final clamp keeps
    [NaN], and the three numbers handed to [rgb] are [NaN].  (The
    comma-separated branch tests [isNaN] and falls back to black.) *)
Theorem parseColor_hex_NaN :
  parseColor (js "#GGGGGG") = rgb NaN NaN NaN /\
  ~ inUnit (red (parseColor (js "#GGGGGG"))) /\
  ~ inUnit (green (parseColor (js "#GGGGGG"))) /\
  ~ inUnit (blue (parseColor (js "#GGGGGG"))).
Proof.
  split; [reflexivity|]. repeat split; intros H; exact H.
Qed.

(** C5.  For hexadecimal digits R1 R2 G1 G2 B1 B2, [parseColor] of
    "#R1R2G1G2B1B2" is the triple (hexToInt(R1R2)/255, hexToInt(G1G2)/255,
    hexToInt(B1B2)/255), and [parseColor] of the three-digit form "#R1G1B1"
    is the same as [parseColor] of its expansion "#R1R1G1G1B1B1". *)
Theorem parseColor_hex (r1 r2 g1 g2 b1 b2 : N) :
  forallb isHexDigit [r1; r2; g1; g2; b1; b2] = true ->
  rgbEq (parseColor (hash [r1; r2; g1; g2; b1; b2]))
        (rgb (Fin (inject_Z (hexToInt r1 r2) / 255))
             (Fin (inject_Z (hexToInt g1 g2) / 255))
             (Fin (inject_Z (hexToInt b1 b2) / 255))) /\
  parseColor (hash [r1; g1; b1]) = parseColor (hash [r1; r1; g1; g1; b1; b1]).
Proof.
  intros H. simpl in H. rewrite !andb_true_iff in H.
  destruct H as (R1 & R2 & G1 & G2 & B1 & B2 & _).
  split.
  - rewrite parseColor_six. repeat split; simpl; now apply channel_hex_pair.
  - reflexivity.
Qed.

(** C5 at "#FF0000" and "#F00". *)
Lemma parseColor_hex_witness :
  rgbEq (parseColor (js "#FF0000"))
        (rgb (Fin (inject_Z (hexToInt 70 70) / 255))
             (Fin (inject_Z (hexToInt 48 48) / 255))
             (Fin (inject_Z (hexToInt 48 48) / 255))) /\
  parseColor (js "#F00") = parseColor (js "#FF0000").
Proof.
  apply (parseColor_hex 70 70 48 48 48 48). reflexivity.
Defined.

Lemma parseColor_hex_examples :
  rgbEq (parseColor (js "#F00")) (rgb (Fin 1) (Fin 0) (Fin 0)) /\
  rgbEq (parseColor (js "#FF0000")) (rgb (Fin 1) (Fin 0) (Fin 0)) /\
  rgbEq (parseColor (js "#808080"))
        (rgb (Fin (128 / 255)) (Fin (128 / 255)) (Fin (128 / 255))).
Proof. vm_compute. repeat split. Qed.

(** C6.  [parseColor] takes a fall-back branch (and warns) exactly in the
    invalid cases -- after ['#'] a remainder whose length is neither 3 nor
    6; without ['#'] fewer than three comma-separated tokens or a token
    that is not a number -- and in each of them it returns black; it is a
    total function, so no error reaches the caller.  In particular
    "not-a-color", "#12" and "1,2" give black. *)
Theorem parseColor_fallback (s : jsstring) :
  (invalidColor s <-> warned s = true) /\
  (invalidColor s -> parseColor s = black) /\
  parseColor (js "not-a-color") = black /\
  parseColor (js "#12") = black /\
  parseColor (js "1,2") = black.
Proof.
  split; [apply warned_iff_invalid|].
  split; [apply invalid_black|].
  repeat split; reflexivity.
Qed.

Lemma parseColor_fallback_witness :
  invalidColor (js "#12") /\ parseColor (js "#12") = black.
Proof.
  assert (I : invalidColor (js "#12")).
  { left. repeat split; simpl; lia. }
  split; [exact I|].
  exact (proj1 (proj2 (parseColor_fallback (js "#12"))) I).
Defined.
End ColorFacts.

(** ** Properties of the option normalisation *)

Module OptionsFacts.
Import JsString JsNumber Options.

Lemma absent_parseFloat :
  parseFloatOf Undefined = NaN /\ parseFloatOf Null = NaN /\
  parseFloatOf (Num NaN) = NaN.
Proof. repeat split; reflexivity. Qed.

Lemma absent_parseInt :
  parseIntOf Undefined = None /\ parseIntOf Null = None /\
  parseIntOf (Num NaN) = None.
Proof. repeat split; reflexivity. Qed.

Lemma truncate_inject_Z (z : Z) : truncate (inject_Z z) = z.
Proof. unfold truncate. simpl. apply Z.quot_1_r. Qed.

Lemma Qabs_inject_Z (z : Z) : Qabs (inject_Z z) = inject_Z (Z.abs z).
Proof. reflexivity. Qed.

(** [parseInt] of a non-zero integer below 1e21 in magnitude is that
    integer. *)
Lemma parseIntNumber_integer (z : Z) :
  z <> 0%Z -> (Z.abs z < 10 ^ 21)%Z ->
  parseIntNumber (Fin (inject_Z z)) = Some z.
Proof.
  intros Hz Hlt. unfold parseIntNumber.
  assert (E0 : Qeq_bool (inject_Z z) 0 = false).
  { destruct (Qeq_bool (inject_Z z) 0) eqn:E; [|reflexivity].
    apply Qeq_bool_iff in E. unfold Qeq in E. simpl in E. lia. }
  rewrite E0, Qabs_inject_Z.
  assert (E1 : Qle_bool (1 # 1000000) (inject_Z (Z.abs z)) = true).
  { apply Qle_bool_iff.
    assert (H1 : (1 <= Z.abs z)%Z) by lia.
    rewrite Zle_Qle in H1. change (inject_Z 1) with 1 in H1.
    apply Qle_trans with 1; [discriminate | exact H1]. }
  assert (E2 : Qltb (inject_Z (Z.abs z)) (inject_Z (10 ^ 21)) = true).
  { apply Qltb_lt. rewrite <- Zlt_Qlt. exact Hlt. }
  rewrite E1, E2. simpl. now rewrite truncate_inject_Z.
Qed.

Lemma orInt_nonzero (z d : Z) : z <> 0%Z -> orInt (Some z) d = z.
Proof.
  intros Hz. unfold orInt. destruct (Z.eqb_spec z 0); [contradiction | reflexivity].
Qed.

Lemma orNumber_nonzero (q : Q) (d : number) :
  ~ q == 0 -> orNumber (Fin q) d = Fin q.
Proof.
  intros Hq. unfold orNumber. destruct (Qeq_bool q 0) eqn:E; [|reflexivity].
  apply Qeq_bool_iff in E. contradiction.
Qed.

(** C7, as stated, fails: a density of 7 is outside the stated domain
    [1,5], yet it is kept and the default 3 is not substituted. *)
Lemma density_outside_domain_is_kept :
  ~ (1 <= 7 <= 5)%Z /\
  density (normalizeOptions
             (mkRaw None None Undefined Undefined Undefined (numZ 7))) = 7%Z.
Proof. split; [lia | reflexivity]. Qed.

(** C7, amended.  Each numeric option falls back to its default (opacity
    0.5, fontSize 50, rotation -45, density 3) when the raw value is absent
    ([undefined] or [null]) or does not parse to a number; a raw value given
    as a non-zero number is kept as it is -- any non-zero opacity, and for
    fontSize, rotation and density any non-zero integer below 1e21 in
    magnitude -- so every non-zero value of the stated domains is preserved,
    and a number outside them is not replaced by the default.  The raw
    input [{opacity: "abc", fontSize: null, rotation: undefined,
    density: "x"}] normalises to 0.5, 50, -45 and 3. *)
Theorem normalizeOptions_numeric_fields (raw : RawOptions) :
  ((rawOpacity raw = Undefined \/ rawOpacity raw = Null \/
    parseFloatOf (rawOpacity raw) = NaN) ->
     opacity (normalizeOptions raw) = Fin 0.5) /\
  ((rawFontSize raw = Undefined \/ rawFontSize raw = Null \/
    parseIntOf (rawFontSize raw) = None) ->
     fontSize (normalizeOptions raw) = 50%Z) /\
  ((rawRotation raw = Undefined \/ rawRotation raw = Null \/
    parseIntOf (rawRotation raw) = None) ->
     rotation (normalizeOptions raw) = (-45)%Z) /\
  ((rawDensity raw = Undefined \/ rawDensity raw = Null \/
    parseIntOf (rawDensity raw) = None) ->
     density (normalizeOptions raw) = 3%Z) /\
  (forall q, rawOpacity raw = Num (Fin q) -> ~ q == 0 ->
     opacity (normalizeOptions raw) = Fin q) /\
  (forall z, rawFontSize raw = numZ z -> z <> 0%Z -> (Z.abs z < 10 ^ 21)%Z ->
     fontSize (normalizeOptions raw) = z) /\
  (forall z, rawRotation raw = numZ z -> z <> 0%Z -> (Z.abs z < 10 ^ 21)%Z ->
     rotation (normalizeOptions raw) = z) /\
  (forall z, rawDensity raw = numZ z -> z <> 0%Z -> (Z.abs z < 10 ^ 21)%Z ->
     density (normalizeOptions raw) = z) /\
  (let example := normalizeOptions
       (mkRaw (rawText raw) (rawColor raw)
              (Str (js "abc")) Null Undefined (Str (js "x"))) in
   opacity example = Fin 0.5 /\ fontSize example = 50%Z /\
   rotation example = (-45)%Z /\ density example = 3%Z).
Proof.
  unfold normalizeOptions. cbn [opacity fontSize rotation density].
  repeat split.
  - intros [-> | [-> | ->]]; reflexivity.
  - intros [-> | [-> | ->]]; reflexivity.
  - intros [-> | [-> | ->]]; reflexivity.
  - intros [-> | [-> | ->]]; reflexivity.
  - intros q -> Hq. now apply orNumber_nonzero.
  - intros z -> Hz Hlt. unfold numZ, parseIntOf.
    rewrite parseIntNumber_integer by assumption. now apply orInt_nonzero.
  - intros z -> Hz Hlt. unfold numZ, parseIntOf.
    rewrite parseIntNumber_integer by assumption. now apply orInt_nonzero.
  - intros z -> Hz Hlt. unfold numZ, parseIntOf.
    rewrite parseIntNumber_integer by assumption. now apply orInt_nonzero.
Qed.

(** The amended C7 at a rotation of 30 degrees. *)
Lemma normalizeOptions_numeric_fields_witness :
  rotation (normalizeOptions
              (mkRaw (Some (js "DRAFT")) (Some (js "#FF0000"))
                     (Num (Fin 0.5)) (numZ 40) (numZ 30) (numZ 1))) = 30%Z.
Proof.
  apply (proj1 (proj2 (proj2 (proj2 (proj2 (proj2 (proj2
           (normalizeOptions_numeric_fields
              (mkRaw (Some (js "DRAFT")) (Some (js "#FF0000"))
                     (Num (Fin 0.5)) (numZ 40) (numZ 30) (numZ 1))))))))) 30%Z).
  - reflexivity.
  - lia.
  - vm_compute. reflexivity.
Defined.

(** The value 0, although inside the stated domains of the opacity and of
    the rotation, is treated as absent by [||]. *)
Lemma zero_is_replaced :
  rotation (normalizeOptions
              (mkRaw None None Undefined Undefined (numZ 0) Undefined)) = (-45)%Z /\
  opacity (normalizeOptions
             (mkRaw None None (Num (Fin 0)) Undefined Undefined Undefined)) = Fin 0.5.
Proof. split; reflexivity. Qed.

End OptionsFacts.

(** ** Properties of the orchestrator *)

Module OrchestratorFacts.
Import JsString JsNumber ColorParser PositionGenerator Options.
Import Orchestrator OrchestratorSpec.

(** *** Beginnings of lists *)

Lemma effects_eta (s : Effects) : mkEffects (drawn s) (downloads s) = s.
Proof. now destruct s. Qed.

Lemma prefixOf_refl {A} (l : list A) : prefixOf l l.
Proof. exists []. now rewrite app_nil_r. Qed.

Lemma prefixOf_more {A} (pre full more : list A) :
  prefixOf pre full -> prefixOf pre (full ++ more).
Proof. intros [rest ->]. exists (rest ++ more). now rewrite app_assoc. Qed.

Lemma prefixOf_after {A} (done pre full : list A) :
  prefixOf pre full -> prefixOf (done ++ pre) (done ++ full).
Proof. intros [rest ->]. exists rest. now rewrite app_assoc. Qed.


(** *** Computations that only draw *)

Lemma appends_ret {A} (a : A) : appends [] (ret a).
Proof.
  intros s. exists []. unfold ret. simpl. rewrite app_nil_r, effects_eta.
  repeat split. apply prefixOf_refl.
Qed.

Lemma appends_throw {A} (e : exn) : appends [] (@throw A e).
Proof.
  intros s. exists []. unfold throw. simpl. rewrite app_nil_r, effects_eta.
  repeat split. apply prefixOf_refl.
Qed.

Lemma appends_await {A} (r : outcome A) : appends [] (await r).
Proof.
  intros s. exists []. unfold await. simpl. rewrite app_nil_r, effects_eta.
  repeat split. apply prefixOf_refl.
Qed.

Lemma appends_rgb w c : appends [] (pdf_rgb w c).
Proof.
  unfold pdf_rgb. destruct (rgbAccepts c); [apply appends_ret | apply appends_throw].
Qed.

Lemma appends_drawText w d : appends [d] (drawText w d).
Proof.
  intros s. unfold drawText. destruct (page_drawText w d) as [u|e]; simpl.
  - exists [d]. repeat split. apply prefixOf_refl.
  - exists []. rewrite app_nil_r, effects_eta. repeat split.
    + now exists [d].
    + discriminate.
Qed.

Lemma appends_bind {A B} (m : M A) (k : A -> M B) (f1 f2 : list DrawCall) :
  appends f1 m -> (forall a, appends f2 (k a)) -> appends (f1 ++ f2) (bind m k).
Proof.
  intros Hm Hk s. unfold bind.
  destruct (Hm s) as (pre1 & E1 & P1 & R1).
  destruct (m s) as [s1 [a|e]]; simpl in *.
  - specialize (R1 a eq_refl). subst pre1. subst s1.
    destruct (Hk a (mkEffects (drawn s ++ f1) (downloads s))) as (pre2 & E2 & P2 & R2).
    simpl in E2. exists (f1 ++ pre2). rewrite E2, app_assoc.
    split; [reflexivity|]. split; [now apply prefixOf_after|].
    intros b Hb. now rewrite (R2 b Hb).
  - exists pre1. split; [exact E1|]. split; [now apply prefixOf_more|].
    discriminate.
Qed.

Lemma appends_forEach {A} (f : A -> M unit) (g : A -> list DrawCall) (l : list A) :
  (forall a, appends (g a) (f a)) -> appends (flat_map g l) (forEach l f).
Proof.
  intros H. induction l as [|a l IH]; simpl.
  - apply appends_ret.
  - apply appends_bind; [apply H | intros _; exact IH].
Qed.

Lemma map_as_flat_map {A B} (f : A -> B) (l : list A) :
  map f l = flat_map (fun a => [f a]) l.
Proof. induction l as [|a l IH]; simpl; [reflexivity | now rewrite IH]. Qed.

Lemma appends_draws {A} w (f : A -> DrawCall) (l : list A) :
  appends (map f l) (forEach l (fun a => drawText w (f a))).
Proof.
  rewrite map_as_flat_map. apply appends_forEach.
  intros a. apply appends_drawText.
Qed.

(** *** Computations that return *)







(** *** Where an error can come from *)

Lemma throwsOnly_ret {A} P (a : A) : throwsOnly P (ret a).
Proof. intros s s' e H. discriminate. Qed.

Lemma throwsOnly_await {A} (P : exn -> Prop) (r : outcome A) :
  (forall e, r = Thrown e -> P e) -> throwsOnly P (await r).
Proof.
  intros H s s' e E. unfold await in E. injection E as _ E. now apply H.
Qed.

Lemma throwsOnly_rgb (P : exn -> Prop) w c :
  (rgbAccepts c = false -> P (rgbError w c)) -> throwsOnly P (pdf_rgb w c).
Proof.
  intros H s s' e E. unfold pdf_rgb in E.
  destruct (rgbAccepts c); [discriminate|].
  injection E as _ <-. now apply H.
Qed.

Lemma throwsOnly_drawText (P : exn -> Prop) w d :
  (forall e, page_drawText w d = Thrown e -> P e) -> throwsOnly P (drawText w d).
Proof.
  intros H s s' e E. unfold drawText in E.
  destruct (page_drawText w d) as [u|e']; [discriminate|].
  injection E as _ <-. now apply H.
Qed.

Lemma throwsOnly_bind {A B} P (m : M A) (k : A -> M B) :
  throwsOnly P m -> (forall a, throwsOnly P (k a)) -> throwsOnly P (bind m k).
Proof.
  intros Hm Hk s s' e E. unfold bind in E.
  destruct (m s) as [s1 [a|e1]] eqn:M.
  - eapply Hk. exact E.
  - injection E as _ <-. eapply Hm. exact M.
Qed.

Lemma throwsOnly_forEach {A} P (f : A -> M unit) (l : list A) :
  (forall a, throwsOnly P (f a)) -> throwsOnly P (forEach l f).
Proof.
  intros H. induction l as [|a l IH]; simpl.
  - apply throwsOnly_ret.
  - apply throwsOnly_bind; [apply H | intros _; exact IH].
Qed.

Lemma watermarkPage_throws w pdfDoc options txt font ucf col page :
  throwsOnly (raisedWhileStamping w pdfDoc)
             (watermarkPage w pdfDoc options txt font ucf col page).
Proof.
  unfold watermarkPage. cbv zeta. apply throwsOnly_bind.
  - apply throwsOnly_forEach. intros pos. apply throwsOnly_drawText.
    intros e He. right; right. eexists; exact He.
  - intros _. destruct ucf; simpl; [apply throwsOnly_ret|].
    apply throwsOnly_bind.
    + apply throwsOnly_await. intros e He. now left.
    + intros _. apply throwsOnly_bind.
      * apply throwsOnly_rgb. intros Hc. right; left. eexists. split; [exact Hc | reflexivity].
      * intros _. apply throwsOnly_drawText. intros e He. right; right. eexists; exact He.
Qed.

(** *** One page and all the pages *)

Lemma watermarkPage_appends w pdfDoc options txt font ucf col page :
  appends (pageDraws w options txt font ucf col page)
          (watermarkPage w pdfDoc options txt font ucf col page).
Proof.
  unfold watermarkPage, pageDraws. cbv zeta.
  apply appends_bind.
  - apply appends_draws.
  - intros _. destruct ucf; simpl.
    + apply appends_ret.
    + change [testStamp (fst page) (fst (snd page)) (snd (snd page))]
        with ([] ++ [] ++ [testStamp (fst page) (fst (snd page)) (snd (snd page))]).
      apply appends_bind; [apply appends_await|]. intros _.
      apply appends_bind; [apply appends_rgb|]. intros _.
      apply appends_drawText.
Qed.






(** The loop over the pages, from a state in which nothing was drawn. *)
Lemma pages_run w pdfDoc options txt font ucf :
  exists pre,
    fst (forEach (indexed (pageSizes pdfDoc))
           (watermarkPage w pdfDoc options txt font ucf (parseColor (color options)))
           (mkEffects [] []))
      = mkEffects pre [] /\
    prefixOf pre (allDraws w options txt font ucf pdfDoc) /\
    (forall u,
       snd (forEach (indexed (pageSizes pdfDoc))
              (watermarkPage w pdfDoc options txt font ucf
                 (parseColor (color options)))
              (mkEffects [] [])) = Returned u ->
       pre = allDraws w options txt font ucf pdfDoc).
Proof.
  destruct (appends_forEach
              (watermarkPage w pdfDoc options txt font ucf (parseColor (color options)))
              (pageDraws w options txt font ucf (parseColor (color options)))
              (indexed (pageSizes pdfDoc))
              (watermarkPage_appends w pdfDoc options txt font ucf
                 (parseColor (color options)))
              (mkEffects [] [])) as (pre & E & P & R).
  exists pre. simpl in E. now repeat split.
Qed.


(** *** The choice of the font *)

Lemma loadChineseFont_state w pdfDoc s :
  fst (loadChineseFont w pdfDoc s) = s.
Proof.
  unfold loadChineseFont, bind, await, throw, ret.
  destruct (fetch w fontPath) as [r|e]; [|reflexivity].
  destruct (ok r); simpl; [|reflexivity].
  destruct (arrayBuffer r) as [d|e]; [|reflexivity].
  destruct (embedCustomFont w pdfDoc d); reflexivity.
Qed.

Lemma loadChineseFont_fails w pdfDoc s :
  chineseFontFails w pdfDoc ->
  exists e, loadChineseFont w pdfDoc s = (s, Thrown e).
Proof.
  unfold chineseFontFails, loadChineseFont, bind, await, throw, ret.
  destruct (fetch w fontPath) as [r|e]; [|intros _; now exists e].
  intros [Hok | H].
  - rewrite Hok. simpl. now eexists.
  - destruct (ok r); simpl; [|now eexists].
    destruct (arrayBuffer r) as [d|e]; [|now exists e].
    destruct (embedCustomFont w pdfDoc d) as [u|e]; [contradiction | now exists e].
Qed.

Lemma chooseFont_state w pdfDoc t s : fst (chooseFont w pdfDoc t s) = s.
Proof.
  unfold chooseFont, tryCatch. unfold bind at 1.
  pose proof (loadChineseFont_state w pdfDoc s) as L.
  destruct (loadChineseFont w pdfDoc s) as [s' [f|e]]; simpl in L; subst s'.
  - reflexivity.
  - unfold bind, await, ret. destruct (embedStandardFont w pdfDoc); reflexivity.
Qed.

(** With the preferred font failing, the standard font is embedded and the
    text is replaced when it has a character in the tested range. *)
Lemma chooseFont_fallback w pdfDoc t s :
  chineseFontFails w pdfDoc ->
  chooseFont w pdfDoc t s =
  match embedStandardFont w pdfDoc with
  | Returned _ => (s, Returned (HelveticaBold, false, fallbackText t))
  | Thrown e => (s, Thrown e)
  end.
Proof.
  intros Hf. destruct (loadChineseFont_fails w pdfDoc s Hf) as [e He].
  unfold chooseFont, tryCatch. unfold bind at 1. rewrite He.
  unfold bind, await, ret, fallbackText.
  destruct (embedStandardFont w pdfDoc); reflexivity.
Qed.

(** The fallback font is the only way to the diagnostic stamp: when
    [useChineseFont] is false the standard font was embedded. *)
Lemma chooseFont_returned w pdfDoc t s s' font ucf txt :
  chooseFont w pdfDoc t s = (s', Returned (font, ucf, txt)) ->
  ucf = true \/ exists u, embedStandardFont w pdfDoc = Returned u.
Proof.
  unfold chooseFont, tryCatch. unfold bind at 1.
  destruct (loadChineseFont w pdfDoc s) as [s1 [f|e]].
  - unfold ret. intros H. injection H as _ _ <- _. now left.
  - unfold bind, await, ret.
    destruct (embedStandardFont w pdfDoc) as [u|e'] eqn:E; [|discriminate].
    intros _. right. now exists u.
Qed.

Lemma chooseFont_thrown w pdfDoc t s s' e :
  chooseFont w pdfDoc t s = (s', Thrown e) ->
  embedStandardFont w pdfDoc = Thrown e.
Proof.
  unfold chooseFont, tryCatch. unfold bind at 1.
  destruct (loadChineseFont w pdfDoc s) as [s1 [f|e1]].
  - unfold ret. discriminate.
  - unfold bind, await, ret.
    destruct (embedStandardFont w pdfDoc) as [u|e2]; [discriminate|].
    intros H. injection H as _ ->. reflexivity.
Qed.

(** *** The whole run, stage by stage *)

Lemma run_stages w file raw :
  run (addWatermarkToPDF w file raw) =
  match fileReader w file with
  | Thrown e => (mkEffects [] [], Thrown e)
  | Returned fileData =>
      match PDFDocument_load w fileData with
      | Thrown e => (mkEffects [] [], Thrown e)
      | Returned pdfDoc =>
          match chooseFont w pdfDoc (text (normalizeOptions raw)) (mkEffects [] []) with
          | (_, Thrown e) => (mkEffects [] [], Thrown e)
          | (_, Returned (font, ucf, txt)) =>
              if rgbAccepts (parseColor (color (normalizeOptions raw))) then
                match forEach (indexed (pageSizes pdfDoc))
                        (watermarkPage w pdfDoc (normalizeOptions raw) txt font ucf
                           (parseColor (color (normalizeOptions raw))))
                        (mkEffects [] []) with
                | (after, Returned _) => saveAndDownload w file pdfDoc after
                | (after, Thrown e) => (after, Thrown e)
                end
              else (mkEffects [] [],
                    Thrown (rgbError w (parseColor (color (normalizeOptions raw)))))
          end
      end
  end.
Proof.
  unfold run, addWatermarkToPDF, tryCatch. cbv zeta.
  unfold bind at 1. unfold readFileAsArrayBuffer. unfold await at 1.
  destruct (fileReader w file) as [fileData|e]; [|reflexivity].
  unfold bind at 1. unfold await at 1.
  destruct (PDFDocument_load w fileData) as [pdfDoc|e]; [|reflexivity].
  unfold bind at 1.
  pose proof (chooseFont_state w pdfDoc (text (normalizeOptions raw))
                (mkEffects [] [])) as St.
  destruct (chooseFont w pdfDoc (text (normalizeOptions raw)) (mkEffects [] []))
    as [s1 [[[font ucf] txt]|e]] eqn:C; simpl in St; subst s1; [|reflexivity].
  unfold bind at 1. unfold pdf_rgb at 1.
  destruct (rgbAccepts (parseColor (color (normalizeOptions raw))));
    [|reflexivity].
  unfold ret at 1. unfold bind at 1.
  destruct (forEach _ _ _) as [after [u|e]]; [|reflexivity].
  unfold saveAndDownload, bind, getDrawn, await, saveAs, ret, expectedDownload.
  simpl. destruct (save w pdfDoc (drawn after)); reflexivity.
Qed.

(** What a run has drawn and downloaded, whatever its outcome, once the
    document is loaded and the font chosen. *)
Lemma stamping_run w file raw pdfDoc font ucf txt :
  let options := normalizeOptions raw in
  let R := if rgbAccepts (parseColor (color options)) then
             match forEach (indexed (pageSizes pdfDoc))
                     (watermarkPage w pdfDoc options txt font ucf
                        (parseColor (color options)))
                     (mkEffects [] []) with
             | (after, Returned _) => saveAndDownload w file pdfDoc after
             | (after, Thrown e) => (after, Thrown e)
             end
           else (mkEffects [] [], Thrown (rgbError w (parseColor (color options)))) in
  prefixOf (drawn (fst R)) (allDraws w options txt font ucf pdfDoc) /\
  ((exists pdf, snd R = Returned RetTrue /\
                drawn (fst R) = allDraws w options txt font ucf pdfDoc /\
                save w pdfDoc (drawn (fst R)) = Returned pdf /\
                downloads (fst R) = [expectedDownload file pdf])
   \/
   (exists e, snd R = Thrown e /\ downloads (fst R) = [] /\
              (raisedWhileStamping w pdfDoc e \/
               save w pdfDoc (drawn (fst R)) = Thrown e))).
Proof.
  intros options R. subst R.
  destruct (rgbAccepts (parseColor (color options))) eqn:Hrgb.
  - destruct (pages_run w pdfDoc options txt font ucf) as (pre & E & P & Rt).
    destruct (forEach _ _ _) as [after [u|e]] eqn:F; simpl in E, Rt; subst after.
    + specialize (Rt u eq_refl). subst pre.
      unfold saveAndDownload. simpl.
      destruct (save w pdfDoc _) as [pdf|e] eqn:Hs; simpl.
      * split; [apply prefixOf_refl|]. left. exists pdf. now repeat split.
      * split; [apply prefixOf_refl|]. right. exists e.
        split; [reflexivity|]. split; [reflexivity|]. now right.
    + simpl. split; [exact P|]. right. exists e.
      split; [reflexivity|]. split; [reflexivity|]. left.
      eapply (throwsOnly_forEach (raisedWhileStamping w pdfDoc)); [|exact F].
      intros page. apply watermarkPage_throws.
  - simpl. split; [now exists (allDraws w options txt font ucf pdfDoc)|].
    right. eexists. split; [reflexivity|]. split; [reflexivity|].
    left. right; left. eexists. split; [exact Hrgb | reflexivity].
Qed.


(** Every run either returns [true] after one download of the saved
    document, or ends with an error and no download; the error is that of
    the first step that failed. *)
Lemma run_summary w file raw :
  let R := run (addWatermarkToPDF w file raw) in
  (exists fileData pdfDoc pdf,
     snd R = Returned RetTrue /\
     fileReader w file = Returned fileData /\
     PDFDocument_load w fileData = Returned pdfDoc /\
     save w pdfDoc (drawn (fst R)) = Returned pdf /\
     downloads (fst R) = [expectedDownload file pdf])
  \/
  (exists e,
     snd R = Thrown e /\ downloads (fst R) = [] /\
     (fileReader w file = Thrown e \/
      (exists fileData,
         fileReader w file = Returned fileData /\
         PDFDocument_load w fileData = Thrown e) \/
      (exists fileData pdfDoc,
         fileReader w file = Returned fileData /\
         PDFDocument_load w fileData = Returned pdfDoc /\
         (raisedWhileStamping w pdfDoc e \/
          save w pdfDoc (drawn (fst R)) = Thrown e)))).
Proof.
  intros R. subst R. rewrite run_stages.
  destruct (fileReader w file) as [fileData|e] eqn:Hread.
  2:{ right. exists e. split; [reflexivity|]. split; [reflexivity|]. now left. }
  destruct (PDFDocument_load w fileData) as [pdfDoc|e] eqn:Hload.
  2:{ right. exists e. split; [reflexivity|]. split; [reflexivity|].
      right; left. now exists fileData. }
  destruct (chooseFont w pdfDoc _ _) as [s1 [[[font ucf] txt]|e]] eqn:C.
  - destruct (stamping_run w file raw pdfDoc font ucf txt)
      as [_ [(pdf & Hv & _ & Hs & Hd) | (e & He & Hd & Ho)]].
    + left. exists fileData, pdfDoc, pdf. now repeat split.
    + right. exists e. split; [exact He|]. split; [exact Hd|].
      right; right. exists fileData, pdfDoc. now repeat split.
  - right. exists e. split; [reflexivity|]. split; [reflexivity|].
    right; right. exists fileData, pdfDoc.
    split; [reflexivity|]. split; [exact Hload|]. left. left.
    eapply chooseFont_thrown. exact C.
Qed.




(** *** The three claims about [addWatermarkToPDF] *)




(** C9, as stated, fails: in the example world the run succeeds and the
    document is saved as the bytes 1, 2, 3, but what the function returns
    is [true], not those bytes. *)
Lemma success_returns_true_not_bytes :
  snd (run (addWatermarkToPDF exampleWorld exampleFile exampleOptions))
    = Returned RetTrue /\
  save exampleWorld exampleDoc
       (drawn (fst (run (addWatermarkToPDF exampleWorld exampleFile exampleOptions))))
    = Returned [1; 2; 3]%N /\
  snd (run (addWatermarkToPDF exampleWorld exampleFile exampleOptions))
    <> Returned (RetBytes [1; 2; 3]%N).
Proof.
  repeat split. intros H. vm_compute in H. discriminate.
Qed.

(** C9, amended.  On success [addWatermarkToPDF] returns [true]; the
    file was read, the document loaded, the document with everything drawn
    on it was saved, and exactly one download was triggered, of the saved
    bytes, with type application/pdf and the name "watermarked_" followed
    by the name of the input file. *)
Theorem success_returns_true_and_downloads
    (w : World) (file : File) (raw : RawOptions) (s : Effects) (v : retval) :
  run (addWatermarkToPDF w file raw) = (s, Returned v) ->
  v = RetTrue /\
  exists fileData pdfDoc pdf,
    fileReader w file = Returned fileData /\
    PDFDocument_load w fileData = Returned pdfDoc /\
    save w pdfDoc (drawn s) = Returned pdf /\
    downloads s = [mkDownload pdf (js "application/pdf")
                              (js "watermarked_" ++ name file)].
Proof.
  intros H. pose proof (run_summary w file raw) as S. cbv zeta in S.
  rewrite H in S. simpl in S.
  destruct S as [(fileData & pdfDoc & pdf & Hv & Hread & Hload & Hs & Hd)
                | (e & He & _)]; [|discriminate].
  injection Hv as ->. split; [reflexivity|].
  exists fileData, pdfDoc, pdf. now repeat split.
Qed.

Lemma success_returns_true_and_downloads_witness :
  RetTrue = RetTrue /\
  exists fileData pdfDoc pdf,
    fileReader exampleWorld exampleFile = Returned fileData /\
    PDFDocument_load exampleWorld fileData = Returned pdfDoc /\
    save exampleWorld pdfDoc
      (drawn (fst (run (addWatermarkToPDF exampleWorld exampleFile exampleOptions))))
      = Returned pdf /\
    downloads (fst (run (addWatermarkToPDF exampleWorld exampleFile exampleOptions)))
      = [mkDownload pdf (js "application/pdf")
                    (js "watermarked_" ++ name exampleFile)].
Proof.
  apply (success_returns_true_and_downloads exampleWorld exampleFile exampleOptions
           (fst (run (addWatermarkToPDF exampleWorld exampleFile exampleOptions)))
           RetTrue).
  vm_compute. reflexivity.
Defined.

(** C10.  If reading the file fails, the run ends with that error; if
    loading the document fails, with that one; if saving the document as
    the run has left it fails, the run ends with an error, which is the
    error of saving unless an earlier step -- the embedding of the
    standard font, [rgb] or [page.drawText] -- had already thrown its
    own.  A run that ends with an error never triggers a download. *)
Theorem failed_run_no_download (w : World) (file : File) (raw : RawOptions) :
  (forall e, fileReader w file = Thrown e ->
     snd (run (addWatermarkToPDF w file raw)) = Thrown e) /\
  (forall fileData e,
     fileReader w file = Returned fileData ->
     PDFDocument_load w fileData = Thrown e ->
     snd (run (addWatermarkToPDF w file raw)) = Thrown e) /\
  (forall fileData pdfDoc e,
     fileReader w file = Returned fileData ->
     PDFDocument_load w fileData = Returned pdfDoc ->
     save w pdfDoc (drawn (fst (run (addWatermarkToPDF w file raw)))) = Thrown e ->
     exists e', snd (run (addWatermarkToPDF w file raw)) = Thrown e' /\
                (e' = e \/ raisedWhileStamping w pdfDoc e')) /\
  (forall e, snd (run (addWatermarkToPDF w file raw)) = Thrown e ->
     downloads (fst (run (addWatermarkToPDF w file raw))) = []).
Proof.
  pose proof (run_summary w file raw) as S. cbv zeta in S.
  split; [|split; [|split]].
  - intros e He. rewrite run_stages, He. reflexivity.
  - intros fileData e Hr Hl. rewrite run_stages, Hr, Hl. reflexivity.
  - intros fileData pdfDoc e Hr Hl Hs.
    destruct S as [(fd & doc & pdf & _ & Hr' & Hl' & Hs' & _)
                  | (e' & He' & _ & [Ho | [(fd & Hr' & Hl') | (fd & doc & Hr' & Hl' & Ho)]])].
    + rewrite Hr in Hr'. injection Hr' as <-.
      rewrite Hl in Hl'. injection Hl' as <-. congruence.
    + congruence.
    + rewrite Hr in Hr'. injection Hr' as <-. congruence.
    + rewrite Hr in Hr'. injection Hr' as <-.
      rewrite Hl in Hl'. injection Hl' as <-.
      exists e'. split; [exact He'|].
      destruct Ho as [Ho | Ho]; [now right | left; congruence].
  - intros e He.
    destruct S as [(fd & doc & pdf & Hv & _) | (e' & _ & Hd & _)];
      [congruence | exact Hd].
Qed.

(** C10 in three worlds: the file cannot be read, the bytes are not a
    document, the document cannot be saved. *)
Lemma failed_run_no_download_witness :
  (snd (run (addWatermarkToPDF unreadableWorld exampleFile exampleOptions))
     = Thrown ErrorEvent /\
   downloads (fst (run (addWatermarkToPDF unreadableWorld exampleFile exampleOptions)))
     = []) /\
  (snd (run (addWatermarkToPDF notADocumentWorld exampleFile exampleOptions))
     = Thrown (Rejected "Failed to parse PDF document") /\
   downloads (fst (run (addWatermarkToPDF notADocumentWorld exampleFile
                          exampleOptions)))
     = []) /\
  (exists e',
     snd (run (addWatermarkToPDF unsavableWorld exampleFile exampleOptions))
       = Thrown e' /\
     (e' = Rejected "save failed" \/ raisedWhileStamping unsavableWorld exampleDoc e') /\
     downloads (fst (run (addWatermarkToPDF unsavableWorld exampleFile
                            exampleOptions)))
       = []).
Proof.
  split; [|split].
  - pose proof (failed_run_no_download unreadableWorld exampleFile exampleOptions)
      as (Hread & _ & _ & Hno).
    pose proof (Hread ErrorEvent eq_refl) as E.
    split; [exact E | exact (Hno _ E)].
  - pose proof (failed_run_no_download notADocumentWorld exampleFile exampleOptions)
      as (_ & Hload & _ & Hno).
    pose proof (Hload [0; 1]%N (Rejected "Failed to parse PDF document")
                  eq_refl eq_refl) as E.
    split; [exact E | exact (Hno _ E)].
  - pose proof (failed_run_no_download unsavableWorld exampleFile exampleOptions)
      as (_ & _ & Hsave & Hno).
    destruct (Hsave [37; 80; 68; 70]%N exampleDoc (Rejected "save failed")
                eq_refl eq_refl eq_refl) as (e' & E & Ho).
    exists e'. split; [exact E|]. split; [exact Ho | exact (Hno _ E)].
Defined.

End OrchestratorFacts.

(** ** Further properties of the position generator *)

Module PositionExtras.
Import PositionGenerator PositionSpec PositionFacts PositionBounds.

(** The loops only ever append: what was in the list stays in front, and
    what is appended are stamps of candidates. *)
Lemma fold_push_appends fs pts : forall l,
  exists ext,
    fold_left (pushUnlessDuplicate fs) pts l = l ++ map (toPos fs) ext /\
    incl ext pts.
Proof.
  induction pts as [|pt pts IH]; intros l; simpl.
  - exists []. split; [now rewrite app_nil_r | intros a []].
  - unfold pushUnlessDuplicate at 2.
    destruct (isDuplicate l (fst pt) (snd pt)).
    + destruct (IH l) as [ext [E I]]. exists ext. split; [exact E|].
      intros a Ha. right. now apply I.
    + destruct (IH (l ++ [mkPos (fst pt) (snd pt) fs])) as [ext [E I]].
      exists (pt :: ext). split.
      * rewrite E, <- app_assoc. reflexivity.
      * intros a [<- | Ha]; [now left | right; now apply I].
Qed.

Lemma gridLayer_appends w h fs d l :
  exists ext,
    gridLayer w h fs d l = l ++ map (toPos fs) ext /\
    incl ext (gridPoints w h (Z.max 2 (d * 2))).
Proof.
  unfold gridLayer. destruct (1 <? d)%Z.
  - apply fold_push_appends.
  - exists []. split; [now rewrite app_nil_r | intros a []].
Qed.

Lemma diagonalLayer_appends w h fs d l :
  exists ext,
    diagonalLayer w h fs d l = l ++ map (toPos fs) ext /\
    incl ext (diagonal1 w h (d * 2) ++ diagonal2 w h (d * 2)) /\
    ((d < 4)%Z -> ext = []).
Proof.
  unfold diagonalLayer. destruct (Z.leb_spec 4 d) as [Hd | Hd].
  - destruct (fold_push_appends fs (diagonal1 w h (d * 2)) l) as [e1 [E1 I1]].
    destruct (fold_push_appends fs (diagonal2 w h (d * 2))
                (fold_left (pushUnlessDuplicate fs) (diagonal1 w h (d * 2)) l))
      as [e2 [E2 I2]].
    exists (e1 ++ e2). split; [|split].
    + rewrite E2, E1, map_app, app_assoc. reflexivity.
    + intros a Ha. apply in_app_or in Ha. apply in_or_app.
      destruct Ha; [left; now apply I1 | right; now apply I2].
    + lia.
  - exists []. split; [now rewrite app_nil_r|]. split; [intros a [] | reflexivity].
Qed.

(** The non-random positions: the base stamps, then stamps of grid
    candidates, then stamps of diagonal candidates. *)
Lemma nonRandomPositions_shape w h fs d :
  exists grid diag,
    nonRandomPositions w h fs d =
      basePositions w h fs ++ map (toPos fs) grid ++ map (toPos fs) diag /\
    incl grid (gridPoints w h (Z.max 2 (d * 2))) /\
    incl diag (diagonal1 w h (d * 2) ++ diagonal2 w h (d * 2)) /\
    ((d <= 1)%Z -> grid = []) /\ ((d < 4)%Z -> diag = []).
Proof.
  unfold nonRandomPositions.
  destruct (gridLayer_appends w h fs d (basePositions w h fs)) as [grid [Eg Ig]].
  destruct (diagonalLayer_appends w h fs d
              (gridLayer w h fs d (basePositions w h fs))) as [diag [Ed [Id Nd]]].
  destruct (Z.ltb_spec 1 d) as [Hd | Hd].
  - exists grid, diag. rewrite Ed, Eg, <- app_assoc.
    repeat split; try assumption. lia.
  - exists [], diag.
    assert (G : gridLayer w h fs d (basePositions w h fs) = basePositions w h fs).
    { unfold gridLayer. destruct (Z.ltb_spec 1 d); [lia | reflexivity]. }
    rewrite G in Ed. rewrite G, Ed.
    split; [reflexivity|]. split; [intros a []|].
    split; [assumption|]. split; [reflexivity | assumption].
Qed.

(** X1.  Whatever the density, the list starts with the five base stamps,
    in the same order; at a density of 1 or less (0 and negative numbers
    included) it is exactly those five. *)
Theorem base_layout_is_prefix
    (random : nat -> Q) (width height fontSize : Q) (density : Z) :
  firstn 5 (generateWatermarkPositions random width height fontSize density)
    = basePositions width height fontSize /\
  (5 <= List.length (generateWatermarkPositions random width height fontSize density))%nat /\
  ((density <= 1)%Z ->
     generateWatermarkPositions random width height fontSize density
       = basePositions width height fontSize).
Proof.
  destruct (nonRandomPositions_shape width height fontSize density)
    as (grid & diag & E & _ & _ & Ng & Nd).
  unfold generateWatermarkPositions. rewrite E.
  split; [reflexivity|]. split.
  - rewrite !length_app, basePositions_length. lia.
  - intros Hd. rewrite (Ng Hd), (Nd ltac:(lia)). unfold randomLayer.
    destruct (Z.eqb_spec density 5); [lia|]. reflexivity.
Qed.

Lemma base_layout_is_prefix_witness :
  generateWatermarkPositions (fun _ => 0) 600 800 40 (-3)
    = basePositions 600 800 40.
Proof.
  apply (proj2 (proj2 (base_layout_is_prefix (fun _ => 0) 600 800 40 (-3)))).
  lia.
Defined.

Lemma diagonal_length w h n :
  (0 <= n + 1)%Z ->
  List.length (diagonal1 w h n) = Z.to_nat (n + 1) /\
  List.length (diagonal2 w h n) = Z.to_nat (n + 1).
Proof.
  intros Hn. unfold diagonal1, diagonal2. rewrite !length_map.
  pose proof (upto_length n Hn). lia.
Qed.

(** X2.  A call never returns more than [maxPositions density] positions:
    at most 5, 30, 54, 104 and 163 for the densities 1 to 5. *)
Theorem position_count_bounded
    (random : nat -> Q) (width height fontSize : Q) (density : Z) :
  (List.length (generateWatermarkPositions random width height fontSize density)
     <= maxPositions density)%nat /\
  map maxPositions [1; 2; 3; 4; 5]%Z = [5; 30; 54; 104; 163]%nat.
Proof.
  split; [|reflexivity].
  unfold generateWatermarkPositions, nonRandomPositions, maxPositions.
  rewrite length_app.
  assert (R : List.length (randomLayer random width height fontSize density)
              = if (density =? 5)%Z then extraWatermarks else 0%nat).
  { unfold randomLayer. destruct (density =? 5)%Z; [|reflexivity].
    now rewrite length_map, length_seq. }
  rewrite R. clear R.
  assert (G : (List.length (gridLayer width height fontSize density
                              (basePositions width height fontSize))
               <= 5 + (if (1 <? density)%Z
                       then Z.to_nat ((Z.max 2 (density * 2) + 1)
                                      * (Z.max 2 (density * 2) + 1))
                       else 0))%nat).
  { unfold gridLayer. destruct (1 <? density)%Z.
    - pose proof (fold_push_length fontSize
                    (gridPoints width height (Z.max 2 (density * 2)))
                    (basePositions width height fontSize)) as L.
      rewrite gridPoints_length, basePositions_length in L by lia. lia.
    - rewrite basePositions_length. lia. }
  revert G.
  generalize (gridLayer width height fontSize density
                (basePositions width height fontSize)) as l.
  intros l G.
  assert (D : (List.length (diagonalLayer width height fontSize density l)
               <= List.length l
                  + (if (4 <=? density)%Z
                     then 2 * Z.to_nat (density * 2 + 1) else 0))%nat).
  { unfold diagonalLayer. destruct (Z.leb_spec 4 density) as [Hd | Hd]; [|lia].
    pose proof (fold_push_length fontSize (diagonal1 width height (density * 2)) l) as L1.
    pose proof (fold_push_length fontSize (diagonal2 width height (density * 2))
                  (fold_left (pushUnlessDuplicate fontSize)
                             (diagonal1 width height (density * 2)) l)) as L2.
    destruct (diagonal_length width height (density * 2) ltac:(lia)) as [E1 E2].
    rewrite E1 in L1. rewrite E2 in L2. lia. }
  revert D G.
  generalize (List.length (diagonalLayer width height fontSize density l)).
  generalize (List.length l).
  intros n m D G.
  destruct (1 <? density)%Z, (4 <=? density)%Z, (density =? 5)%Z; lia.
Qed.


(** X4.  The random layer: at density 5 exactly 15 positions follow the
    non-random ones and at any other density none.  When [Math.random]
    stays in [0,1) and the width, height and font size are not negative,
    each of the 15 lies on the page and its size is between 0.8 and 1.2
    times the font size. *)
Theorem random_layer_bounds
    (random : nat -> Q) (width height fontSize : Q) (density : Z) :
  (forall k, 0 <= random k < 1) ->
  0 <= width -> 0 <= height -> 0 <= fontSize ->
  exists extra,
    generateWatermarkPositions random width height fontSize density
      = nonRandomPositions width height fontSize density ++ extra /\
    List.length extra = (if (density =? 5)%Z then 15 else 0)%nat /\
    Forall (randomStamp width height fontSize) extra.
Proof.
  intros Hr Hw Hh Hf.
  exists (randomLayer random width height fontSize density).
  split; [reflexivity|]. unfold randomLayer.
  destruct (density =? 5)%Z; [|split; [reflexivity | constructor]].
  split; [now rewrite length_map, length_seq|].
  apply Forall_forall. intros p Hp. apply in_map_iff in Hp.
  destruct Hp as [i [<- _]]. unfold randomStamp. cbn [x y size].
  pose proof (Hr (3 * i)%nat) as R0.
  pose proof (Hr (3 * i + 1)%nat) as R1.
  pose proof (Hr (3 * i + 2)%nat) as R2.
  revert R0 R1 R2.
  generalize (random (3 * i)%nat) (random (3 * i + 1)%nat) (random (3 * i + 2)%nat).
  intros r0 r1 r2 [A0 B0] [A1 B1] [A2 B2].
  assert (P0 : 0 <= r0 * width) by (apply Qmult_le_0_compat; assumption).
  assert (Q0 : 0 <= (1 - r0) * width) by (apply Qmult_le_0_compat; lra).
  assert (P1 : 0 <= r1 * height) by (apply Qmult_le_0_compat; assumption).
  assert (Q1 : 0 <= (1 - r1) * height) by (apply Qmult_le_0_compat; lra).
  assert (P2 : 0 <= fontSize * r2) by (apply Qmult_le_0_compat; assumption).
  assert (Q2 : 0 <= fontSize * (1 - r2)) by (apply Qmult_le_0_compat; lra).
  repeat split; (lra || nra).
Qed.

Lemma random_layer_bounds_witness :
  exists extra,
    generateWatermarkPositions (fun _ => 1 # 2) 600 800 40 5
      = nonRandomPositions 600 800 40 5 ++ extra /\
    List.length extra = 15%nat /\
    Forall (randomStamp 600 800 40) extra.
Proof.
  apply (random_layer_bounds (fun _ => 1 # 2) 600 800 40 5).
  - intros k. split; reflexivity || discriminate.
  - discriminate.
  - discriminate.
  - discriminate.
Defined.

(** *** The font size does not move the stamps *)

Lemma isDuplicate_place l1 l2 px py :
  map place l1 = map place l2 -> isDuplicate l1 px py = isDuplicate l2 px py.
Proof.
  revert l2. induction l1 as [|p l1 IH]; intros [|q l2] H; try discriminate.
  - reflexivity.
  - injection H as Hx Hy Hl. unfold isDuplicate in *. simpl.
    rewrite (IH l2 Hl). unfold near. now rewrite Hx, Hy.
Qed.

Lemma fold_push_place fs1 fs2 pts : forall l1 l2,
  map place l1 = map place l2 ->
  map place (fold_left (pushUnlessDuplicate fs1) pts l1)
  = map place (fold_left (pushUnlessDuplicate fs2) pts l2).
Proof.
  induction pts as [|pt pts IH]; intros l1 l2 H; simpl; [exact H|].
  apply IH. unfold pushUnlessDuplicate.
  rewrite (isDuplicate_place l1 l2 _ _ H).
  destruct (isDuplicate l2 (fst pt) (snd pt)); [exact H|].
  rewrite !map_app, H. reflexivity.
Qed.

(** X18.  The font size decides the size of the stamps and nothing else:
    with the same page, density and random numbers, two font sizes give
    the same number of stamps at the same places, in the same order. *)
Theorem places_do_not_depend_on_font_size
    (random : nat -> Q) (width height fontSize1 fontSize2 : Q) (density : Z) :
  map place (generateWatermarkPositions random width height fontSize1 density)
  = map place (generateWatermarkPositions random width height fontSize2 density).
Proof.
  unfold generateWatermarkPositions. rewrite !map_app. f_equal.
  - unfold nonRandomPositions, diagonalLayer, gridLayer.
    assert (B : map place (basePositions width height fontSize1)
                = map place (basePositions width height fontSize2))
      by reflexivity.
    destruct (1 <? density)%Z, (4 <=? density)%Z;
      repeat apply fold_push_place; exact B.
  - unfold randomLayer. destruct (density =? 5)%Z; [|reflexivity].
    rewrite !map_map. reflexivity.
Qed.

End PositionExtras.

(** ** Further properties of the colour parser *)

Module ColorExtras.
Import JsString JsNumber ColorParser ColorSpec ColorFacts ColorVocabulary.

(** X5.  For every string, each channel of the result is either [NaN] or a
    number in [0,1]: no other value leaves [parseColor]. *)
Theorem parseColor_channel_range (s : jsstring) :
  (red (parseColor s) = NaN \/ inUnit (red (parseColor s))) /\
  (green (parseColor s) = NaN \/ inUnit (green (parseColor s))) /\
  (blue (parseColor s) = NaN \/ inUnit (blue (parseColor s))).
Proof.
  unfold parseColor, parseColorTrace.
  destruct (startsWith s (js "#")).
  - destruct (List.length (substringFrom s 1) =? 3)%nat;
      [|destruct (List.length (substringFrom s 1) =? 6)%nat];
      cbn [snd red green blue]; repeat split; apply clamp01_unit_or_NaN.
  - destruct ((3 <=? List.length (map Number (split 44 s)))%nat
              && negb (existsb isNaN (map Number (split 44 s))));
      cbn [snd red green blue]; repeat split; apply clamp01_unit_or_NaN.
Qed.

(** X6.  For a string that does not start with ['#'] the three channels
    are numbers in [0,1], whatever the string. *)
Theorem parseColor_without_hash_in_unit (s : jsstring) :
  startsWith s (js "#") = false ->
  inUnit (red (parseColor s)) /\ inUnit (green (parseColor s)) /\
  inUnit (blue (parseColor s)).
Proof.
  intros H. unfold parseColor.
  destruct ((3 <=? List.length (map Number (split 44 s)))%nat
            && negb (existsb isNaN (map Number (split 44 s)))) eqn:C.
  - rewrite (parseColorTrace_rgb_valid s H C). cbn [snd red green blue].
    apply andb_true_iff in C. destruct C as [L N].
    apply Nat.leb_le in L. apply negb_true_iff in N.
    repeat split; apply clamp01_twice_unit; apply nth_not_NaN; (lia || exact N).
  - rewrite (parseColorTrace_rgb_invalid s H C).
    repeat split; simpl; lra.
Qed.

Lemma parseColor_without_hash_in_unit_witness :
  inUnit (red (parseColor (js "7,abc"))) /\
  inUnit (green (parseColor (js "7,abc"))) /\
  inUnit (blue (parseColor (js "7,abc"))).
Proof.
  apply (parseColor_without_hash_in_unit (js "7,abc")). reflexivity.
Defined.

(** *** Upper and lower case *)

Lemma sameUpper_all :
  forallb (fun c1 => forallb (sameUpper c1) hexDigits) hexDigits = true.
Proof. vm_compute. reflexivity. Qed.

Lemma channel_upper (c1 c2 : N) :
  isHexDigit c1 = true -> isHexDigit c2 = true ->
  channel [toUpperCase c1; toUpperCase c2] = channel [c1; c2].
Proof.
  intros H1 H2. apply isHexDigit_In in H1, H2.
  pose proof sameUpper_all as A. rewrite forallb_forall in A.
  specialize (A c1 H1). rewrite forallb_forall in A. specialize (A c2 H2).
  unfold sameUpper in A. unfold channel.
  destruct (parseInt [c1; c2] 16) as [a|]; [|discriminate].
  destruct (parseInt [toUpperCase c1; toUpperCase c2] 16) as [b|]; [|discriminate].
  apply Z.eqb_eq in A. now subst.
Qed.

(** X7.  The case of the hexadecimal digits does not matter: a six-digit
    or three-digit colour and its upper-case form give the same result. *)
Theorem parseColor_hex_case (r1 r2 g1 g2 b1 b2 : N) :
  forallb isHexDigit [r1; r2; g1; g2; b1; b2] = true ->
  parseColor (hash (map toUpperCase [r1; r2; g1; g2; b1; b2]))
    = parseColor (hash [r1; r2; g1; g2; b1; b2]) /\
  parseColor (hash (map toUpperCase [r1; g1; b1]))
    = parseColor (hash [r1; g1; b1]).
Proof.
  intros H. simpl in H. rewrite !andb_true_iff in H.
  destruct H as (R1 & R2 & G1 & G2 & B1 & B2 & _).
  simpl map. rewrite !parseColor_six, !parseColor_three.
  rewrite !channel_upper by assumption. split; reflexivity.
Qed.

Lemma parseColor_hex_case_witness :
  parseColor (js "#ABCDEF") = parseColor (js "#abcdef") /\
  parseColor (js "#ACE") = parseColor (js "#ace").
Proof.
  apply (parseColor_hex_case 97 98 99 100 101 102). reflexivity.
Defined.


(** *** A pair whose second character is not a digit *)

Lemma hex_digit_facts (c : N) :
  isHexDigit c = true ->
  isWhiteSpace c = false /\ (c =? 45)%N = false /\ (c =? 43)%N = false /\
  digitValue c = Some (hexDigit c) /\ (0 <= hexDigit c < 16)%Z.
Proof.
  intros H. apply isHexDigit_In in H. unfold hexDigits in H. simpl in H.
  repeat (destruct H as [<- | H];
    [repeat split; solve [reflexivity | vm_compute; discriminate]|]).
  destruct H.
Qed.

Lemma takeDigits_not_hex (c : N) (s : jsstring) :
  isHexDigit c = false -> takeDigits 16 (c :: s) = ([], c :: s).
Proof.
  intros H. unfold isHexDigit in H.
  rewrite !orb_false_iff, !andb_false_iff, !N.leb_gt in H.
  destruct H as [[H1 H2] H3].
  simpl. unfold digitValue.
  destruct ((48 <=? c) && (c <=? 57))%N eqn:E1.
  { apply andb_true_iff in E1. rewrite !N.leb_le in E1. lia. }
  destruct ((97 <=? c) && (c <=? 122))%N eqn:E2.
  { destruct (Z.ltb_spec (Z.of_N c - 87) 16) as [L|L]; [|reflexivity].
    apply andb_true_iff in E2. rewrite !N.leb_le in E2. lia. }
  destruct ((65 <=? c) && (c <=? 90))%N eqn:E3; [|reflexivity].
  destruct (Z.ltb_spec (Z.of_N c - 55) 16) as [L|L]; [|reflexivity].
  apply andb_true_iff in E3. rewrite !N.leb_le in E3. lia.
Qed.

Lemma takeDigits_digit (radix : Z) (c : N) (d : Z) (s : jsstring) :
  digitValue c = Some d -> (d < radix)%Z ->
  takeDigits radix (c :: s)
  = (d :: fst (takeDigits radix s), snd (takeDigits radix s)).
Proof.
  intros D L. simpl. rewrite D.
  destruct (Z.ltb_spec d radix); [|lia].
  now destruct (takeDigits radix s).
Qed.

Lemma parseInt_digit_then_other (c1 c2 : N) :
  isHexDigit c1 = true -> isHexDigit c2 = false -> isHexPrefix c1 c2 = false ->
  parseInt [c1; c2] 16 = Some (hexDigit c1).
Proof.
  intros H1 H2 H3.
  destruct (hex_digit_facts c1 H1) as (W & S1 & S2 & D & R).
  unfold parseInt. simpl trimStart. rewrite W.
  unfold takeSign. rewrite S1, S2.
  change ((16 =? 0)%Z || (2 <=? 16)%Z && (16 <=? 36)%Z) with true.
  change ((16 =? 0)%Z || (16 =? 16)%Z) with true.
  cbv iota. unfold hasHexPrefix. unfold isHexPrefix in H3. rewrite H3.
  cbn [andb]. change (if (16 =? 0)%Z then 10%Z else 16%Z) with 16%Z.
  rewrite (takeDigits_digit 16 c1 (hexDigit c1) [c2] D ltac:(lia)).
  rewrite takeDigits_not_hex by exact H2.
  cbn [fst]. unfold digitsValue. simpl fold_left.
  f_equal. destruct (hexDigit c1); reflexivity.
Qed.

(** X8.  In a six-character colour a pair made of a hexadecimal digit and
    a character that is not one is read as the single digit, so the red
    channel is the value of that digit over 255 -- except the pairs "0x"
    and "0X", which [parseInt] takes for a prefix and which give [NaN]. *)
Theorem parseColor_hex_lone_digit (c1 c2 g1 g2 b1 b2 : N) :
  isHexDigit c1 = true -> isHexDigit c2 = false ->
  (isHexPrefix c1 c2 = false ->
     numEq (red (parseColor (hash [c1; c2; g1; g2; b1; b2])))
           (Fin (inject_Z (hexDigit c1) / 255))) /\
  (isHexPrefix c1 c2 = true ->
     red (parseColor (hash [c1; c2; g1; g2; b1; b2])) = NaN).
Proof.
  intros H1 H2. rewrite parseColor_six. cbn [red]. split; intros H3.
  - unfold channel. rewrite (parseInt_digit_then_other c1 c2 H1 H2 H3).
    simpl ofInt. simpl divideBy. apply clamp01_in_unit.
    destruct (hex_digit_facts c1 H1) as (_ & _ & _ & _ & [L U]).
    assert (U' : (hexDigit c1 <= 255)%Z) by lia.
    rewrite Zle_Qle in L, U'. change (inject_Z 0) with 0 in L.
    change (inject_Z 255) with 255 in U'.
    split.
    + apply Qle_shift_div_l; [reflexivity | lra].
    + apply Qle_shift_div_r; [reflexivity | lra].
  - unfold isHexPrefix in H3. apply andb_true_iff in H3. destruct H3 as [A B].
    apply N.eqb_eq in A. subst c1. apply orb_true_iff in B.
    destruct B as [B | B]; apply N.eqb_eq in B; subst c2; reflexivity.
Qed.

Lemma parseColor_hex_lone_digit_witness :
  numEq (red (parseColor (js "#1G0000"))) (Fin (inject_Z (hexDigit 49) / 255)) /\
  red (parseColor (js "#0x0000")) = NaN.
Proof.
  split.
  - apply (proj1 (parseColor_hex_lone_digit 49 71 48 48 48 48 eq_refl eq_refl)).
    reflexivity.
  - apply (proj2 (parseColor_hex_lone_digit 48 120 48 48 48 48 eq_refl eq_refl)).
    reflexivity.
Defined.

(** *** Three numbers between commas *)

Lemma split_noComma (tok : jsstring) : noComma tok -> split 44 tok = [tok].
Proof.
  unfold noComma. induction tok as [|c tok IH]; intros H; simpl.
  - reflexivity.
  - destruct (N.eqb_spec c 44) as [-> | _]; [exfalso; apply H; now left|].
    rewrite IH; [reflexivity|]. intros X. apply H. now right.
Qed.

Lemma split_token_comma (tok rest : jsstring) :
  noComma tok -> split 44 (tok ++ 44%N :: rest) = tok :: split 44 rest.
Proof.
  unfold noComma. induction tok as [|c tok IH]; intros H; simpl.
  - reflexivity.
  - destruct (N.eqb_spec c 44) as [-> | _]; [exfalso; apply H; now left|].
    rewrite IH; [reflexivity|]. intros X. apply H. now right.
Qed.

(** Splitting what was joined gives the tokens back. *)
Lemma split_joinComma (tok : jsstring) (tokens : list jsstring) :
  Forall noComma (tok :: tokens) ->
  split 44 (joinComma (tok :: tokens)) = tok :: tokens.
Proof.
  revert tok. induction tokens as [|t tokens IH]; intros tok H.
  - simpl. apply split_noComma. now inversion H.
  - inversion H as [|? ? Htok Hrest]; subst.
    change (joinComma (tok :: t :: tokens))
      with (tok ++ 44%N :: joinComma (t :: tokens)).
    rewrite split_token_comma by exact Htok. now rewrite IH.
Qed.

Lemma startsWith_nil (s : jsstring) : startsWith s [] = true.
Proof. destruct s; reflexivity. Qed.

Lemma startsWith_joinComma (tok t : jsstring) (tokens : list jsstring) :
  startsWith (joinComma (tok :: t :: tokens)) (js "#") = startsWith tok (js "#").
Proof.
  change (joinComma (tok :: t :: tokens))
    with (tok ++ 44%N :: joinComma (t :: tokens)).
  destruct tok as [|c tok]; [reflexivity|].
  change (js "#") with [35%N]. simpl. now rewrite !startsWith_nil.
Qed.

Lemma clamp01_twice (v : number) : numEq (clamp01 (clamp01 v)) (clamp01 v).
Proof.
  destruct (clamp01_unit_or_NaN v) as [-> | U]; [exact I|].
  destruct (clamp01 v) as [|q| |]; try contradiction.
  now apply clamp01_in_unit.
Qed.

(** X9.  Three or more tokens between commas, each of which [Number]
    reads as a number, the first not starting with ['#']: the channels are
    the first three numbers, each clamped to [0,1]; the tokens after
    the third do not change the result. *)
Theorem parseColor_three_numbers (r g b : jsstring) (more : list jsstring) :
  Forall noComma (r :: g :: b :: more) ->
  Forall (fun tok => Number tok <> NaN) (r :: g :: b :: more) ->
  startsWith r (js "#") = false ->
  rgbEq (parseColor (joinComma (r :: g :: b :: more)))
        (rgb (clamp01 (Number r)) (clamp01 (Number g)) (clamp01 (Number b))) /\
  warned (joinComma (r :: g :: b :: more)) = false.
Proof.
  intros Hc Hn Hs.
  assert (S : startsWith (joinComma (r :: g :: b :: more)) (js "#") = false).
  { now rewrite startsWith_joinComma. }
  assert (T : (3 <=? List.length (map Number (split 44 (joinComma (r :: g :: b :: more)))))%nat
              && negb (existsb isNaN
                         (map Number (split 44 (joinComma (r :: g :: b :: more)))))
              = true).
  { rewrite split_joinComma by exact Hc. apply andb_true_iff. split.
    - reflexivity.
    - apply negb_true_iff.
      destruct (existsb isNaN (map Number (r :: g :: b :: more))) eqn:E;
        [|reflexivity].
      apply existsb_exists in E. destruct E as [v [Hin Hv]].
      apply in_map_iff in Hin. destruct Hin as [tok [<- Hin]].
      rewrite Forall_forall in Hn. specialize (Hn tok Hin).
      destruct (Number tok); try discriminate. contradiction. }
  unfold parseColor, warned. rewrite (parseColorTrace_rgb_valid _ S T).
  rewrite split_joinComma by exact Hc. simpl.
  split; [|reflexivity]. repeat split; apply clamp01_twice.
Qed.

Lemma parseColor_three_numbers_witness :
  rgbEq (parseColor (js "0.2, 7 ,-3,9"))
        (rgb (clamp01 (Number (js "0.2"))) (clamp01 (Number (js " 7 ")))
             (clamp01 (Number (js "-3")))) /\
  warned (js "0.2, 7 ,-3,9") = false.
Proof.
  apply (parseColor_three_numbers (js "0.2") (js " 7 ") (js "-3") [js "9"]).
  - repeat constructor; unfold noComma; simpl; intuition discriminate.
  - repeat constructor; vm_compute; discriminate.
  - reflexivity.
Defined.

End ColorExtras.

(** ** Further properties of the option normalisation *)

Module OptionsExtras.
Import JsString JsNumber Options OptionsFacts AppOptions.

Lemma orInt_not_zero (v : option Z) (d : Z) : d <> 0%Z -> orInt v d <> 0%Z.
Proof.
  intros Hd. unfold orInt. destruct v as [z|]; [|exact Hd].
  destruct (Z.eqb_spec z 0); assumption.
Qed.

Lemma orString_not_empty (s : option jsstring) (d : jsstring) :
  d <> [] -> orString s d <> [].
Proof.
  intros Hd. unfold orString. destruct s as [[|c s]|]; try exact Hd. discriminate.
Qed.

(** X10.  Whatever the raw input, the normalised options hold a text and
    a colour that are not empty, an opacity that is neither [NaN] nor 0,
    and a font size, a rotation and a density that are never 0 (nor
    [NaN], which [||] replaces by the default).  They need not be small,
    nor in any range: whatever [parseInt] reads and is not 0 is kept. *)
Theorem normalizeOptions_never_empty_or_zero (raw : RawOptions) :
  text (normalizeOptions raw) <> [] /\
  color (normalizeOptions raw) <> [] /\
  truthyNumber (opacity (normalizeOptions raw)) /\
  fontSize (normalizeOptions raw) <> 0%Z /\
  rotation (normalizeOptions raw) <> 0%Z /\
  density (normalizeOptions raw) <> 0%Z.
Proof.
  unfold normalizeOptions. cbn [text color opacity fontSize rotation density].
  repeat split; try (apply orInt_not_zero; discriminate);
    try (apply orString_not_empty; discriminate).
  unfold orNumber, truthyNumber.
  destruct (parseFloatOf (rawOpacity raw)) as [|q| |]; try exact I.
  - discriminate.
  - destruct (Qeq_bool q 0) eqn:E; [discriminate|].
    intros Hq. apply Qeq_bool_iff in Hq. congruence.
Qed.

(** The opacity is not held to [0,1]: a raw opacity of 7, or the string
    "Infinity", passes through. *)
Lemma opacity_is_not_clamped :
  opacity (normalizeOptions (mkRaw None None (Num (Fin 7)) Undefined Undefined Undefined))
    = Fin 7 /\
  opacity (normalizeOptions
             (mkRaw None None (Str (js "Infinity")) Undefined Undefined Undefined))
    = PosInf.
Proof. split; reflexivity. Qed.




(** Beyond that the two coercions differ: the font size "1" followed by
    21 zeros is kept by one coercion and becomes 1 after two. *)
Lemma double_coercion_of_huge_integer :
  fontSize (normalizeOptions
              (mkRaw None None Undefined (Str (js "1000000000000000000000"))
                     Undefined Undefined)) = (10 ^ 21)%Z /\
  fontSize (normalizeOptions
              (ensureNumberValues
                 (mkRaw None None Undefined (Str (js "1000000000000000000000"))
                        Undefined Undefined))) = 1%Z.
Proof. split; vm_compute; reflexivity. Qed.

End OptionsExtras.

(** ** Further properties of the orchestrator *)

Module OrchestratorExtras.
Import JsString JsNumber ColorParser PositionGenerator Options.
Import Orchestrator OrchestratorSpec OrchestratorFacts OrchestratorVocabulary.











(** X13.  When the preferred font fails and the standard font cannot be
    embedded either, the run stops there with the error of the standard
    font: nothing is drawn, nothing is saved or downloaded. *)
Theorem fallback_font_failure_aborts
    (w : World) (file : File) (raw : RawOptions)
    (fileData : bytes) (pdfDoc : PDFDocument) (e : exn) :
  fileReader w file = Returned fileData ->
  PDFDocument_load w fileData = Returned pdfDoc ->
  chineseFontFails w pdfDoc ->
  embedStandardFont w pdfDoc = Thrown e ->
  run (addWatermarkToPDF w file raw) = (mkEffects [] [], Thrown e).
Proof.
  intros Hread Hload Hfail Hstd.
  rewrite run_stages, Hread, Hload, chooseFont_fallback, Hstd by exact Hfail.
  reflexivity.
Qed.

Lemma fallback_font_failure_aborts_witness :
  run (addWatermarkToPDF noFontWorld exampleFile exampleOptions)
    = (mkEffects [] [], Thrown (Rejected "embedFont failed")).
Proof.
  apply (fallback_font_failure_aborts noFontWorld exampleFile exampleOptions
           [37; 80; 68; 70]%N
           (mkDoc [37; 80; 68; 70]%N [(600, 800); (600, 800)])
           (Rejected "embedFont failed") eq_refl eq_refl).
  - left. reflexivity.
  - reflexivity.
Defined.

Lemma chooseFont_returns w pdfDoc t s :
  embedStandardFont w pdfDoc = Returned tt ->
  exists font ucf txt, chooseFont w pdfDoc t s = (s, Returned (font, ucf, txt)).
Proof.
  intros Hstd. unfold chooseFont, tryCatch. unfold bind at 1.
  pose proof (loadChineseFont_state w pdfDoc s) as L.
  destruct (loadChineseFont w pdfDoc s) as [s1 [f|e]]; simpl in L; subst s1.
  - now exists f, true, t.
  - unfold bind, await, ret. rewrite Hstd. now eexists _, _, _.
Qed.

(** X19.  When the file is read, the document loaded and a font chosen,
    a colour whose parsed channels pdf-lib's [rgb] does not accept -- a
    [NaN], as for "#GGGGGG" -- ends the run with the error of [rgb]
    before any page is touched: nothing is drawn, saved or downloaded. *)
Theorem rejected_colour_aborts
    (w : World) (file : File) (raw : RawOptions)
    (fileData : bytes) (pdfDoc : PDFDocument) :
  fileReader w file = Returned fileData ->
  PDFDocument_load w fileData = Returned pdfDoc ->
  embedStandardFont w pdfDoc = Returned tt ->
  rgbAccepts (parseColor (color (normalizeOptions raw))) = false ->
  run (addWatermarkToPDF w file raw)
  = (mkEffects [] [],
     Thrown (rgbError w (parseColor (color (normalizeOptions raw))))).
Proof.
  intros Hread Hload Hstd Hrgb.
  destruct (chooseFont_returns w pdfDoc (text (normalizeOptions raw))
              (mkEffects [] []) Hstd) as (font & ucf & txt & C).
  rewrite run_stages, Hread, Hload, C, Hrgb. reflexivity.
Qed.

Lemma rejected_colour_aborts_witness :
  run (addWatermarkToPDF strictWorld exampleFile
         (mkRaw (Some (js "DRAFT")) (Some (js "#GGGGGG"))
                (Num (Fin 0.5)) (numZ 40) (numZ 30) (numZ 1)))
  = (mkEffects [] [], Thrown (Rejected "rgb")).
Proof.
  apply (rejected_colour_aborts strictWorld exampleFile
           (mkRaw (Some (js "DRAFT")) (Some (js "#GGGGGG"))
                  (Num (Fin 0.5)) (numZ 40) (numZ 30) (numZ 1))
           [37; 80; 68; 70]%N exampleDoc eq_refl eq_refl eq_refl).
  vm_compute. reflexivity.
Defined.

(** The first position of every page is the centre stamp. *)
Lemma generate_starts_with_centre random w h fs d :
  exists more,
    generateWatermarkPositions random w h fs d
    = mkPos (w / 2) (h / 2) (fs * 1.5) :: more.
Proof.
  destruct (PositionExtras.nonRandomPositions_shape w h fs d)
    as (grid & diag & E & _).
  unfold generateWatermarkPositions. rewrite E. unfold basePositions.
  eexists. simpl. reflexivity.
Qed.

(** X20.  When the file is read, the document loaded, the preferred font
    fails while the standard font embeds and the colour is accepted, and
    pdf-lib rejects the first draw call of the first page -- the centre
    stamp, for an opacity outside [0,1] or a text that the standard font
    cannot encode -- the run ends with that error: nothing is drawn,
    saved or downloaded. *)
Theorem rejected_first_draw_aborts
    (w : World) (file : File) (raw : RawOptions)
    (fileData : bytes) (pdfDoc : PDFDocument) (sz : Q * Q) (e : exn) :
  fileReader w file = Returned fileData ->
  PDFDocument_load w fileData = Returned pdfDoc ->
  chineseFontFails w pdfDoc ->
  embedStandardFont w pdfDoc = Returned tt ->
  rgbAccepts (parseColor (color (normalizeOptions raw))) = true ->
  nth_error (pageSizes pdfDoc) 0 = Some sz ->
  page_drawText w
    (stamp 0 (fallbackText (text (normalizeOptions raw))) HelveticaBold
       (normalizeOptions raw) (parseColor (color (normalizeOptions raw)))
       (mkPos (fst sz / 2) (snd sz / 2)
              (inject_Z (fontSize (normalizeOptions raw)) * 1.5)))
    = Thrown e ->
  run (addWatermarkToPDF w file raw) = (mkEffects [] [], Thrown e).
Proof.
  intros Hread Hload Hfail Hstd Hrgb Hsz Hdraw.
  rewrite run_stages, Hread, Hload, chooseFont_fallback, Hstd, Hrgb by exact Hfail.
  set (options := normalizeOptions raw) in *. clearbody options.
  destruct (pageSizes pdfDoc) as [|sz0 rest] eqn:P; [discriminate|].
  injection Hsz as ->.
  destruct (generate_starts_with_centre (Math_random w 0)
              (fst sz) (snd sz) (inject_Z (fontSize options))
              (density options)) as [more G].
  unfold indexed. simpl combine. unfold forEach at 1. fold (@forEach (nat * (Q * Q))).
  unfold bind at 1. unfold watermarkPage at 1. cbv zeta. cbn [fst snd].
  unfold bind at 1. rewrite G. simpl forEach. unfold bind at 1.
  unfold drawText at 1. rewrite Hdraw. reflexivity.
Qed.

(** X20 with an opacity of 1.5, and with a text in hiragana that the
    standard font cannot encode. *)
Lemma rejected_first_draw_aborts_witness :
  run (addWatermarkToPDF strictWorld exampleFile
         (mkRaw (Some (js "DRAFT")) None (Num (Fin 1.5)) Undefined Undefined
                (numZ 1)))
    = (mkEffects [] [], Thrown (Rejected "opacity out of range")) /\
  run (addWatermarkToPDF strictWorld exampleFile
         (mkRaw (Some [12354%N]) None Undefined Undefined Undefined (numZ 1)))
    = (mkEffects [] [], Thrown (Rejected "WinAnsi cannot encode")).
Proof.
  split.
  - apply (rejected_first_draw_aborts strictWorld exampleFile
             (mkRaw (Some (js "DRAFT")) None (Num (Fin 1.5)) Undefined Undefined
                    (numZ 1))
             [37; 80; 68; 70]%N exampleDoc (600, 800)
             (Rejected "opacity out of range")
             eq_refl eq_refl I eq_refl eq_refl eq_refl).
    vm_compute. reflexivity.
  - apply (rejected_first_draw_aborts strictWorld exampleFile
             (mkRaw (Some [12354%N]) None Undefined Undefined Undefined (numZ 1))
             [37; 80; 68; 70]%N exampleDoc (600, 800)
             (Rejected "WinAnsi cannot encode")
             eq_refl eq_refl I eq_refl eq_refl eq_refl).
    vm_compute. reflexivity.
Defined.

Lemma thrown_error_origin
    (w : World) (file : File) (raw : RawOptions) (s : Effects) (e : exn) :
  run (addWatermarkToPDF w file raw) = (s, Thrown e) ->
  raisedByCollaborator w file e.
Proof.
  intros H. pose proof (run_summary w file raw) as S. cbv zeta in S.
  rewrite H in S. simpl in S. unfold raisedByCollaborator.
  destruct S as [(fd & doc & pdf & Hv & _)
                | (e' & He' & _ & [Ho | [(fd & _ & Hl) | (fd & doc & _ & _ & Ho)]])];
    [discriminate | | |]; injection He' as <-.
  - now left.
  - right; left. now exists fd.
  - destruct Ho as [[Ho | [Ho | Ho]] | Ho].
    + right; right; left. now exists doc.
    + right; right; right; left. exact Ho.
    + right; right; right; right; left. exact Ho.
    + right; right; right; right; right. exists doc. eexists. exact Ho.
Qed.

(** X14.  The error of a failed run is always one that a collaborator
    raised -- the file reader, the loading of the document, the embedding
    of the standard font, [rgb], [page.drawText] or the saving.  The
    error that the function itself throws when the font response is not
    ok, and the errors of fetching and embedding the preferred font, are
    caught by the inner [catch] and are not among them. *)
Theorem error_comes_from_collaborator
    (w : World) (file : File) (raw : RawOptions) (e : exn) :
  snd (run (addWatermarkToPDF w file raw)) = Thrown e ->
  raisedByCollaborator w file e.
Proof.
  intros H.
  destruct (run (addWatermarkToPDF w file raw)) as [s r] eqn:R.
  simpl in H. subst r. eapply thrown_error_origin. exact R.
Qed.

Lemma error_comes_from_collaborator_witness :
  raisedByCollaborator noFontWorld exampleFile (Rejected "embedFont failed").
Proof.
  apply (error_comes_from_collaborator noFontWorld exampleFile exampleOptions
           (Rejected "embedFont failed")).
  vm_compute. reflexivity.
Defined.

End OrchestratorExtras.

(** ** Properties of the page component *)

Module AppFacts.
Import JsString JsNumber Options Orchestrator OrchestratorSpec OrchestratorFacts.
Import OrchestratorVocabulary OrchestratorExtras AppOptions App.

Lemma strictEquals_eq (a b : jsstring) : strictEquals a b = true <-> a = b.
Proof.
  revert b. induction a as [|c a IH]; intros [|d b]; simpl; split; intros H;
    try reflexivity; try discriminate.
  - apply andb_true_iff in H. destruct H as [E H]. apply N.eqb_eq in E.
    apply IH in H. now subst.
  - injection H as -> ->. apply andb_true_iff. split;
      [apply N.eqb_refl | now apply IH].
Qed.

(** A run triggers one download and returns, or none and throws. *)
Lemma run_outcome w file raw :
  (snd (run (addWatermarkToPDF w file raw)) = Returned RetTrue /\
   exists pdf, downloads (fst (run (addWatermarkToPDF w file raw)))
               = [expectedDownload file pdf])
  \/
  (exists e, snd (run (addWatermarkToPDF w file raw)) = Thrown e /\
             downloads (fst (run (addWatermarkToPDF w file raw))) = []).
Proof.
  pose proof (run_summary w file raw) as S. cbv zeta in S.
  destruct S as [(fd & doc & pdf & Hv & _ & _ & _ & Hd) | (e & He & Hd & _)].
  - left. split; [exact Hv|]. now exists pdf.
  - right. now exists e.
Qed.

(** What a click on the button leaves behind when a file is selected. *)
Lemma handleAddWatermark_step (w : World) (st : AppState) (f : PickedFile) :
  selectedFile st = Some f ->
  isProcessing (fst (handleAddWatermark w st)) = false /\
  selectedFile (fst (handleAddWatermark w st)) = Some f /\
  (downloads (snd (handleAddWatermark w st)) = [] \/
   exists pdf, downloads (snd (handleAddWatermark w st))
               = [expectedDownload (picked f) pdf]).
Proof.
  intros H. unfold handleAddWatermark. rewrite H. cbv zeta.
  pose proof (run_outcome w (picked f) (ensureNumberValues (watermarkOptions st)))
    as O.
  destruct (run (addWatermarkToPDF w (picked f)
                   (ensureNumberValues (watermarkOptions st))))
    as [done [v|e]]; simpl in *.
  - repeat split. destruct O as [[_ [pdf Hd]] | [e [He _]]]; [|discriminate].
    right. now exists pdf.
  - repeat split. destruct O as [[Hv _] | [e' [_ Hd]]]; [discriminate|].
    now left.
Qed.

(** X15.  A click on the button without a selected file calls no
    collaborator and only sets the error message.  With a selected file,
    when the handler is done the page is no longer processing, the numeric
    options are coerced, and exactly one of two things has happened: the
    success message is shown, the error message is empty and one file
    named "watermarked_" followed by the name of the selected file was
    downloaded; or the error message is the prefix followed by what the
    template string prints for the [message] of the error -- an error a
    collaborator raised: the file reader, the loading, the standard font,
    [rgb], [page.drawText] or the saving -- the success message is empty
    and nothing was downloaded.  When the file cannot be read the error
    is the reader's event, which has no message, and the page shows the
    prefix followed by "undefined". *)
Theorem handleAddWatermark_outcome (w : World) (st : AppState) :
  (selectedFile st = None ->
     handleAddWatermark w st
     = (mkApp None (isProcessing st) msgSelectFirst (successMessage st)
              (watermarkOptions st), mkEffects [] [])) /\
  (forall f, selectedFile st = Some f ->
     let st' := fst (handleAddWatermark w st) in
     let done := snd (handleAddWatermark w st) in
     isProcessing st' = false /\
     selectedFile st' = Some f /\
     watermarkOptions st' = ensureNumberValues (watermarkOptions st) /\
     ((successMessage st' = msgSuccess /\ errorMessage st' = [] /\
       exists pdf, downloads done
                   = [mkDownload pdf (js "application/pdf")
                                 (js "watermarked_" ++ name (picked f))])
      \/
      (successMessage st' = [] /\ downloads done = [] /\
       exists e, errorMessage st' = msgErrorPrefix ++ messageOf e /\
                 raisedByCollaborator w (picked f) e))).
Proof.
  split.
  - intros H. unfold handleAddWatermark. now rewrite H.
  - intros f H. unfold handleAddWatermark. rewrite H. cbv zeta.
    pose proof (run_outcome w (picked f) (ensureNumberValues (watermarkOptions st)))
      as O.
    pose proof (thrown_error_origin w (picked f)
                  (ensureNumberValues (watermarkOptions st))) as P.
    destruct (run (addWatermarkToPDF w (picked f)
                     (ensureNumberValues (watermarkOptions st))))
      as [done [v|e]]; simpl in *.
    + repeat split. left. repeat split.
      destruct O as [[_ [pdf Hd]] | [e [He _]]]; [|discriminate].
      exists pdf. exact Hd.
    + repeat split. right. repeat split.
      * destruct O as [[Hv _] | [e' [_ Hd]]]; [discriminate | exact Hd].
      * exists e. split; [reflexivity|]. now apply (P done e).
Qed.

Lemma handleAddWatermark_outcome_witness :
  (successMessage (fst (handleAddWatermark exampleWorld
      (mkApp (Some (mkPicked exampleFile (js "application/pdf"))) false [] []
             initialOptions))) = msgSuccess /\
   downloads (snd (handleAddWatermark exampleWorld
      (mkApp (Some (mkPicked exampleFile (js "application/pdf"))) false [] []
             initialOptions)))
     = [mkDownload [1; 2; 3]%N (js "application/pdf") (js "watermarked_a.pdf")]) /\
  (errorMessage (fst (handleAddWatermark unreadableWorld
      (mkApp (Some (mkPicked exampleFile (js "application/pdf"))) false [] []
             initialOptions))) = msgErrorPrefix ++ js "undefined" /\
   downloads (snd (handleAddWatermark unreadableWorld
      (mkApp (Some (mkPicked exampleFile (js "application/pdf"))) false [] []
             initialOptions))) = []).
Proof.
  split.
  - pose proof (proj2 (handleAddWatermark_outcome exampleWorld
       (mkApp (Some (mkPicked exampleFile (js "application/pdf"))) false [] []
              initialOptions))
       (mkPicked exampleFile (js "application/pdf")) eq_refl) as H.
    cbv zeta in H. destruct H as (_ & _ & _ & [[Hs [_ [pdf Hd]]] | [Hs _]]).
    + split; [exact Hs|]. vm_compute. reflexivity.
    + vm_compute in Hs. discriminate.
  - pose proof (proj2 (handleAddWatermark_outcome unreadableWorld
       (mkApp (Some (mkPicked exampleFile (js "application/pdf"))) false [] []
              initialOptions))
       (mkPicked exampleFile (js "application/pdf")) eq_refl) as H.
    cbv zeta in H. destruct H as (_ & _ & _ & [[Hs _] | [_ [Hd _]]]).
    + vm_compute in Hs. discriminate.
    + split; [vm_compute; reflexivity | exact Hd].
Defined.

Lemma handleFileChange_selection (file : option PickedFile) (st : AppState) :
  selectionIsPdf (handleFileChange file st) /\
  isProcessing (handleFileChange file st) = isProcessing st.
Proof.
  unfold handleFileChange, selectionIsPdf.
  destruct file as [f|]; [|split; [exact I | reflexivity]].
  destruct (isPdf f) eqn:E; simpl; split; try reflexivity; try exact I.
  now apply strictEquals_eq.
Qed.

(** X16.  Picking a file whose type is not application/pdf, or no file,
    drops whatever was selected before: the next click on the button calls
    no collaborator, draws and downloads nothing, and shows the message
    that a file has to be selected first. *)
Theorem rejected_file_is_not_processed
    (w : World) (file : option PickedFile) (st : AppState) :
  match file with Some f => fileType f <> js "application/pdf" | None => True end ->
  selectedFile (handleFileChange file st) = None /\
  errorMessage (handleFileChange file st) = msgInvalidFile /\
  snd (handleAddWatermark w (handleFileChange file st)) = mkEffects [] [] /\
  errorMessage (fst (handleAddWatermark w (handleFileChange file st)))
    = msgSelectFirst.
Proof.
  intros H.
  assert (E : handleFileChange file st
              = mkApp None (isProcessing st) msgInvalidFile (successMessage st)
                      (watermarkOptions st)).
  { unfold handleFileChange. destruct file as [f|]; [|reflexivity].
    destruct (isPdf f) eqn:P; [|reflexivity].
    apply strictEquals_eq in P. contradiction. }
  rewrite E. repeat split.
Qed.

Lemma rejected_file_is_not_processed_witness :
  snd (handleAddWatermark exampleWorld
         (handleFileChange (Some (mkPicked exampleFile (js "image/png")))
            (mkApp (Some (mkPicked exampleFile (js "application/pdf")))
                   false [] [] initialOptions)))
  = mkEffects [] [].
Proof.
  apply (rejected_file_is_not_processed exampleWorld
           (Some (mkPicked exampleFile (js "image/png")))
           (mkApp (Some (mkPicked exampleFile (js "application/pdf")))
                  false [] [] initialOptions)).
  discriminate.
Defined.

Lemma step_invariant w st ev :
  selectionIsPdf st -> isProcessing st = false ->
  selectionIsPdf (fst (step w st ev)) /\
  isProcessing (fst (step w st ev)) = false /\
  Forall watermarkedPdf (snd (step w st ev)) /\
  (List.length (snd (step w st ev)) <= clicks [ev])%nat.
Proof.
  intros Hsel Hp. destruct ev as [file|value|options| |]; simpl.
  - destruct (handleFileChange_selection file st) as [A B].
    repeat split; [exact A | now rewrite B | constructor | unfold clicks; simpl; lia].
  - repeat split; [exact Hsel | exact Hp | constructor | unfold clicks; simpl; lia].
  - repeat split; [exact Hsel | exact Hp | constructor | unfold clicks; simpl; lia].
  - destruct (selectedFile st) as [f|] eqn:S.
    + pose proof (handleAddWatermark_step w st f S) as H.
      destruct (handleAddWatermark w st) as [st' done].
      simpl in *. destruct H as (P' & S' & O).
      split; [|split; [exact P'|]].
      * unfold selectionIsPdf in *. rewrite S'. now rewrite S in Hsel.
      * destruct O as [Hd | [pdf Hd]]; rewrite Hd.
        -- split; [constructor | unfold clicks; simpl; lia].
        -- split; [|unfold clicks; simpl; lia]. constructor; [|constructor].
           split; [reflexivity|]. now exists (name (picked f)).
    + unfold handleAddWatermark. rewrite S. simpl.
      repeat split; [exact Hp | constructor | unfold clicks; simpl; lia].
  - repeat split; [exact Hp | constructor | unfold clicks; simpl; lia].
Qed.

(** X17.  Whatever the user does from the initial page -- pick files,
    change the colour or the other fields, click the button, reset -- the
    selected file is always absent or a PDF, the page is never left in the
    processing state, every download is a PDF named "watermarked_..." and
    there are never more downloads than clicks on the button. *)
Theorem page_invariant (w : World) (evs : list event) :
  selectionIsPdf (fst (steps w initialState evs)) /\
  isProcessing (fst (steps w initialState evs)) = false /\
  Forall watermarkedPdf (snd (steps w initialState evs)) /\
  (List.length (snd (steps w initialState evs)) <= clicks evs)%nat.
Proof.
  assert (G : forall evs st,
            selectionIsPdf st -> isProcessing st = false ->
            selectionIsPdf (fst (steps w st evs)) /\
            isProcessing (fst (steps w st evs)) = false /\
            Forall watermarkedPdf (snd (steps w st evs)) /\
            (List.length (snd (steps w st evs)) <= clicks evs)%nat).
  { clear evs. induction evs as [|ev evs IH]; intros st Hsel Hp.
    - simpl. repeat split; [exact Hsel | exact Hp | constructor | lia].
    - destruct (step_invariant w st ev Hsel Hp) as (A & B & C & D).
      simpl steps. destruct (step w st ev) as [st1 d1]. simpl in A, B, C, D.
      destruct (IH st1 A B) as (A' & B' & C' & D').
      destruct (steps w st1 evs) as [st2 d2]. simpl in *.
      repeat split; [exact A' | exact B' | now apply Forall_app |].
      rewrite length_app. unfold clicks in *. simpl.
      destruct ev; simpl in *; lia. }
  apply G; [exact I | reflexivity].
Qed.

End AppFacts.
